(** * Sputnik: bouncer orchestrator, framing capability and web handlers

    A shallow embedding of [sputnik/connection.py], [sputnik/bouncer.py] and
    [sputnik/handlers.py], with the properties of the specification stated
    and settled against it.

    Conventions.
    - A Python [bytes] value is a [list byte]; a Python [str] is the list of
      its code points ([list N], every element below [0x110000]).
    - A Python call that may raise returns a [result]; a method that mutates
      [self] or the world takes the state and returns the new state together
      with its [result], so that the effects done before a [raise] stay.
    - Objects that are shared by reference (network sessions) live in a heap
      and are named by their location. *)

From Stdlib Require Import NArith ZArith.
From Stdlib.Strings Require Import Byte.
From stdpp Require Import base option list gmap strings fin_maps.

Local Open Scope N_scope.

(** [lia] with divisions and remainders by constants spelled out. *)
Ltac div_lia := zify; Z.to_euclidean_division_equations; lia.

(** ** Exceptions and results *)

Inductive exn : Type :=
  | UnicodeDecodeError
  | UnicodeEncodeError
  | TypeError
  | ValueError
  | MissingArgumentError
  | HTTPError (status : N).

Inductive result (A : Type) : Type :=
  | Ok (a : A)
  | Raise (e : exn).
Arguments Ok {A} a.
Arguments Raise {A} e.

Definition returns {A} (r : result A) : Prop := ∃ a, r = Ok a.

(** ** Text and bytes *)

Abbreviation bytes := (list byte).
Abbreviation text := (list N).

(** The code points of an ASCII literal, for readable examples. *)
Definition text_of_string (s : string) : text :=
  Ascii.N_of_ascii <$> String.list_ascii_of_string s.

Definition is_surrogate (c : N) : bool := (0xD800 <=? c) && (c <=? 0xDFFF).

(** What a Python [str] may hold and [str.encode()] accepts. *)
Definition is_scalar (c : N) : bool := (c <? 0x110000) && negb (is_surrogate c).

(** *** The codecs: [bytes.decode] and [str.encode] *)

Inductive encoding : Type := Utf8 | Latin1.

Definition in_range (lo hi c : N) : bool := (lo <=? c) && (c <=? hi).

Definition is_cont (b : byte) : bool := in_range 0x80 0xBF (Byte.to_N b).

Definition cont_bits (b : byte) : N := N.land (Byte.to_N b) 0x3F.

(** Bounds of the second byte of a three or four byte sequence: they rule
    out overlong forms, surrogates and values above [0x10FFFF]. *)
Definition second_range (c0 : N) : N * N :=
  if c0 =? 0xE0 then (0xA0, 0xBF)
  else if c0 =? 0xED then (0x80, 0x9F)
  else if c0 =? 0xF0 then (0x90, 0xBF)
  else if c0 =? 0xF4 then (0x80, 0x8F)
  else (0x80, 0xBF).

(** Strict UTF-8, as CPython's default [errors="strict"] decoder. *)
Fixpoint utf8_decode (b : bytes) : option text :=
  match b with
  | [] => Some []
  | b0 :: r0 =>
    let c0 := Byte.to_N b0 in
    if c0 <? 0x80 then cons c0 <$> utf8_decode r0
    else if in_range 0xC2 0xDF c0 then
      match r0 with
      | b1 :: r1 =>
        if is_cont b1
        then cons (N.lor (N.shiftl (N.land c0 0x1F) 6) (cont_bits b1))
               <$> utf8_decode r1
        else None
      | _ => None
      end
    else if in_range 0xE0 0xEF c0 then
      match r0 with
      | b1 :: b2 :: r2 =>
        let '(lo, hi) := second_range c0 in
        if in_range lo hi (Byte.to_N b1) && is_cont b2
        then cons (N.lor (N.shiftl (N.land c0 0x0F) 12)
                     (N.lor (N.shiftl (cont_bits b1) 6) (cont_bits b2)))
               <$> utf8_decode r2
        else None
      | _ => None
      end
    else if in_range 0xF0 0xF4 c0 then
      match r0 with
      | b1 :: b2 :: b3 :: r3 =>
        let '(lo, hi) := second_range c0 in
        if in_range lo hi (Byte.to_N b1) && is_cont b2 && is_cont b3
        then cons (N.lor (N.shiftl (N.land c0 0x07) 18)
                     (N.lor (N.shiftl (cont_bits b1) 12)
                        (N.lor (N.shiftl (cont_bits b2) 6) (cont_bits b3))))
               <$> utf8_decode r3
        else None
      | _ => None
      end
    else None
  end.

(** [bytes.decode(encoding)]; the default encoding is UTF-8. *)
Definition bytes_decode (enc : encoding) (b : bytes) : result text :=
  match enc with
  | Utf8 =>
    match utf8_decode b with
    | Some t => Ok t
    | None => Raise UnicodeDecodeError
    end
  | Latin1 => Ok (Byte.to_N <$> b)
  end.

Definition byte_of_N (n : N) : byte :=
  default x00 (Byte.of_N (n mod 256)).

Definition utf8_encode_cp (c : N) : option bytes :=
  if c <? 0x80 then Some [byte_of_N c]
  else if c <? 0x800 then
    Some [byte_of_N (N.lor 0xC0 (N.shiftr c 6));
          byte_of_N (N.lor 0x80 (N.land c 0x3F))]
  else if c <? 0x10000 then
    if is_surrogate c then None
    else Some [byte_of_N (N.lor 0xE0 (N.shiftr c 12));
               byte_of_N (N.lor 0x80 (N.land (N.shiftr c 6) 0x3F));
               byte_of_N (N.lor 0x80 (N.land c 0x3F))]
  else if c <? 0x110000 then
    Some [byte_of_N (N.lor 0xF0 (N.shiftr c 18));
          byte_of_N (N.lor 0x80 (N.land (N.shiftr c 12) 0x3F));
          byte_of_N (N.lor 0x80 (N.land (N.shiftr c 6) 0x3F));
          byte_of_N (N.lor 0x80 (N.land c 0x3F))]
  else None.

Fixpoint utf8_encode (t : text) : option bytes :=
  match t with
  | [] => Some []
  | c :: r =>
    match utf8_encode_cp c, utf8_encode r with
    | Some bs, Some br => Some (bs ++ br)
    | _, _ => None
    end
  end.

(** [str.encode()], UTF-8 and strict by default. *)
Definition str_encode (t : text) : result bytes :=
  match utf8_encode t with
  | Some b => Ok b
  | None => Raise UnicodeEncodeError
  end.

(** *** [str.endswith] and [str.join] *)

Definition endswith (line ending : text) : bool :=
  (length ending <=? length line)%nat
  && bool_decide (drop (length line - length ending) line = ending).

Fixpoint join (sep : text) (parts : list text) : text :=
  match parts with
  | [] => []
  | [p] => p
  | p :: rest => p ++ sep ++ join sep rest
  end.

(** ** [sputnik/connection.py]: class [Connection] *)

(** The asyncio transport of a session: what was written to it, in order,
    and whether [close()] was called. *)
Record Transport : Type := mkTransport {
  written : list bytes;
  closed : bool
}.

Definition Transport_write (tr : Transport) (data : bytes) : Transport :=
  {| written := written tr ++ [data]; closed := closed tr |}.

Definition Transport_close (tr : Transport) : Transport :=
  {| written := written tr; closed := true |}.

Module Connection.

(** [Connection.decode]:
<<
    try: return line.decode()
    except UnicodeDecodeError:
        return line.decode("latin1")
>> *)
Definition decode (line : bytes) : result text :=
  match bytes_decode Utf8 line with
  | Ok t => Ok t
  | Raise UnicodeDecodeError => bytes_decode Latin1 line
  | Raise e => Raise e
  end.

Definition CRLF : text := [13; 10].

(** [Connection.normalize]:
<<
    if not line.endswith(ending):
        line += ending
    return line
>> *)
Definition normalize (line : text) (ending : text) : text :=
  if negb (endswith line ending) then line ++ ending else line.

(** [Connection.send]:
<<
    message = self.normalize(" ".join(args))
    self.transport.write(message.encode())
>>
    [ending] is left at its default. *)
Definition send (tr : Transport) (args : list text) : Transport * result unit :=
  let message := normalize (join [32] args) CRLF in
  match str_encode message with
  | Ok data => (Transport_write tr data, Ok tt)
  | Raise e => (tr, Raise e)
  end.

End Connection.

(** ** Python values and keyword dictionaries *)

(** The values that travel through the orchestrator: [None], integers and
    strings.  The code never checks which one it is given. *)
Inductive pyval : Type :=
  | PNone
  | PInt (z : Z)
  | PStr (s : text).

#[global] Instance pyval_eq_dec : EqDecision pyval.
Proof. solve_decision. Defined.

#[global] Instance pyval_countable : Countable pyval.
Proof.
  refine (inj_countable'
    (λ v, match v with
          | PNone => inl ()
          | PInt z => inr (inl z)
          | PStr s => inr (inr s)
          end)
    (λ x, match x with
          | inl _ => PNone
          | inr (inl z) => PInt z
          | inr (inr s) => PStr s
          end) _).
  by intros [].
Defined.

(** A [dict] with string keys, as built by a literal or received through
    [**kwargs]. *)
Abbreviation kwargs := (gmap string pyval).

Abbreviation loc := positive.

(** ** The collaborators of the orchestrator *)

(** Modelled from the spec: the session contract of section 6
    ([sputnik/network.py] is not part of the sources).  A network session
    exposes a boolean [connected] flag and a [transport] handle offering
    [close()]. *)
Record Network : Type := mkNetwork {
  connected : bool;
  transport : Transport
}.

(** Modelled from the spec: the persistence adapter of section 6
    ([sputnik/datastore.py] is not part of the sources): an opaque key-value
    store holding the bouncer-wide password and one credentials record per
    network name. *)
Record Datastore : Type := mkDatastore {
  password : option text;
  stored : gmap pyval kwargs
}.

Module Datastore.

Definition get_password (d : Datastore) : option text := password d.

(** Modelled from the spec: a secret is generated and stored; [secret] is
    what the generator produced. *)
Definition set_password (secret : text) (d : Datastore) : Datastore :=
  {| password := Some secret; stored := stored d |}.

(** Modelled from the spec: a full snapshot, [map[name]Credentials]. *)
Definition get_networks (d : Datastore) : gmap pyval kwargs := stored d.

(** Modelled from the spec: upsert by network name.  A call without the
    [network] keyword is a [TypeError]. *)
Definition add_network (d : Datastore) (kw : kwargs) : result Datastore :=
  match kw !! "network" with
  | Some name =>
    Ok {| password := password d; stored := <[name := kw]> (stored d) |}
  | None => Raise TypeError
  end.

(** Modelled from the spec: idempotent delete. *)
Definition remove_network (d : Datastore) (name : pyval) : Datastore :=
  {| password := password d; stored := delete name (stored d) |}.

End Datastore.

(** What the orchestrator asks of the outside world, in program order. *)
Inductive event : Type :=
  | StoreSetPassword
  | StoreAddNetwork (kw : kwargs)
  | StoreRemoveNetwork (name : pyval)
  | Dial (hostname port : pyval) (kw : kwargs)
  | TransportClose (l : loc).

#[global] Instance event_eq_dec : EqDecision event.
Proof. solve_decision. Defined.

Definition is_store_write (e : event) : bool :=
  match e with StoreAddNetwork _ => true | _ => false end.

Definition is_dial (e : event) : bool :=
  match e with Dial _ _ _ => true | _ => false end.

(** ** The state: the [Bouncer] object and the world around it *)

Record State : Type := mkState {
  clients : gset loc;               (* self.clients *)
  networks : gmap pyval loc;        (* self.networks *)
  datastore : option Datastore;     (* self.datastore, None or the adapter *)
  heap : gmap loc Network;          (* the session objects *)
  trace : list event                (* requests issued so far *)
}.

Definition emit (e : event) (s : State) : State :=
  {| clients := clients s; networks := networks s; datastore := datastore s;
     heap := heap s; trace := trace s ++ [e] |}.

Definition set_datastore (d : option Datastore) (s : State) : State :=
  {| clients := clients s; networks := networks s; datastore := d;
     heap := heap s; trace := trace s |}.

Definition set_heap (h : gmap loc Network) (s : State) : State :=
  {| clients := clients s; networks := networks s; datastore := datastore s;
     heap := h; trace := trace s |}.

Definition set_networks (n : gmap pyval loc) (s : State) : State :=
  {| clients := clients s; networks := n; datastore := datastore s;
     heap := heap s; trace := trace s |}.

(** Methods: state in, state and result out. *)
Definition M (A : Type) : Type := State → State * result A.

Definition mret {A} (a : A) : M A := λ s, (s, Ok a).

Definition mraise {A} (e : exn) : M A := λ s, (s, Raise e).

Definition mbind {A B} (m : M A) (k : A → M B) : M B :=
  λ s, match m s with
       | (s', Ok a) => k a s'
       | (s', Raise e) => (s', Raise e)
       end.

Definition lift_result {A} (r : result A) : M A := λ s, (s, r).

Definition modify (f : State → State) : M unit := λ s, (f s, Ok tt).

Declare Scope method_scope.
Delimit Scope method_scope with method.
Notation "x <- m ;; k" := (mbind m (λ x, k))
  (at level 100, m at next level, right associativity) : method_scope.
Notation "m ;;; k" := (mbind m (λ _, k))
  (at level 100, right associativity) : method_scope.

(** A [for] loop whose body may raise. *)
Fixpoint for_each {A} (body : A → M unit) (l : list A) : M unit :=
  match l with
  | [] => mret tt
  | x :: r => mbind (body x) (λ _, for_each body r)
  end.

(** ** [sputnik/bouncer.py]: class [Bouncer] *)

Module Bouncer.

(** The dictionary literal of [add_network]. *)
Definition credentials_dict
    (network hostname port nickname username realname password : pyval)
    : kwargs :=
  <["network" := network]>
  (<["nickname" := nickname]>
  (<["username" := username]>
  (<["realname" := realname]>
  (<["hostname" := hostname]>
  (<["port" := port]>
  (<["password" := password]> ∅)))))).

(** [Bouncer.add_network].  The optional arguments are [None] when the
    caller leaves them out.
<<
    credentials = { "network" : network, "nickname" : nickname, ... }
    if self.datastore: self.datastore.add_network( **credentials)
    loop = asyncio.get_event_loop()
    coro = loop.create_connection(lambda: Network(self, **credentials),
                                  hostname, port)
    asyncio.async(coro)
>> *)
Definition add_network
    (network hostname port nickname username realname : pyval)
    (password usermode : option pyval) : M unit :=
  let password := default PNone password in
  let usermode := default (PInt 0) usermode in
  let credentials :=
    credentials_dict network hostname port nickname username realname
      password in
  (λ s,
    (match datastore s with
     | Some d =>
       (modify (emit (StoreAddNetwork credentials)) ;;;
        d' <- lift_result (Datastore.add_network d credentials) ;;
        modify (set_datastore (Some d')))
     | None => mret tt
     end ;;;
     modify (emit (Dial hostname port credentials)))%method s).

(** [self.add_network( **credentials)]: binding a dictionary to the
    signature of [add_network]. *)
Definition add_network_keywords : gset string :=
  {[ "network"; "hostname"; "port"; "nickname"; "username"; "realname";
     "password"; "usermode" ]}.

Definition add_network_kw (kw : kwargs) : M unit :=
  if bool_decide (dom kw ⊆ add_network_keywords) then
    match kw !! "network", kw !! "hostname", kw !! "port",
          kw !! "nickname", kw !! "username", kw !! "realname" with
    | Some network, Some hostname, Some port,
      Some nickname, Some username, Some realname =>
      add_network network hostname port nickname username realname
        (kw !! "password") (kw !! "usermode")
    | _, _, _, _, _, _ => mraise TypeError
    end
  else mraise TypeError.

Definition disconnect (n : Network) : Network :=
  {| connected := false; transport := transport n |}.

Definition close_transport (n : Network) : Network :=
  {| connected := connected n; transport := Transport_close (transport n) |}.

(** [Bouncer.remove_network]:
<<
    if network in self.networks:
        self.networks[network].connected = False
        self.networks[network].transport.close()
    if self.datastore: self.datastore.remove_network(network)
>> *)
Definition remove_network (network : pyval) : M unit :=
  (λ s,
    (match networks s !! network with
     | Some l =>
       (modify (λ s, set_heap (alter disconnect l (heap s)) s) ;;;
        modify (λ s, set_heap (alter close_transport l (heap s)) s) ;;;
        modify (emit (TransportClose l)))
     | None => mret tt
     end ;;;
     (λ s,
       match datastore s with
       | Some d =>
         (modify (emit (StoreRemoveNetwork network)) ;;;
          modify (set_datastore (Some (Datastore.remove_network d network))))
           s
       | None => mret tt s
       end))%method s).

Definition falsy (p : option text) : bool :=
  match p with
  | None | Some [] => true
  | Some _ => false
  end.

(** [Bouncer.__init__].  [reachable] is the adapter when the ping
    succeeds and [None] when it raises [redis.ConnectionError]; [secret]
    is the password [set_password] would generate.
<<
    self.clients = set()
    self.networks = dict()
    try: ... except redis.ConnectionError: self.datastore = None
    if self.datastore:
        if not self.datastore.get_password():
            self.datastore.set_password()
        history = self.datastore.get_networks()
        for credentials in history.values():
            self.add_network( **credentials)
>> *)
Definition init_state (reachable : option Datastore) : State :=
  {| clients := ∅; networks := ∅; datastore := reachable;
     heap := ∅; trace := [] |}.

Definition init_body (secret : text) : M unit :=
  λ s,
    match datastore s with
    | Some d =>
      ((if falsy (Datastore.get_password d)
        then (modify (emit StoreSetPassword) ;;;
              modify (set_datastore
                        (Some (Datastore.set_password secret d))))
        else mret tt) ;;;
       (let history := Datastore.get_networks d in
        for_each add_network_kw (snd <$> map_to_list history)))%method s
    | None => mret tt s
    end.

Definition init (reachable : option Datastore) (secret : text)
    : State * result unit :=
  init_body secret (init_state reachable).

End Bouncer.

(** ** [sputnik/handlers.py]: the configuration pages *)

(** [str.split(sep)] for a one character separator. *)
Fixpoint split_on (sep : N) (t : text) : list text :=
  match t with
  | [] => [[]]
  | c :: r =>
    if bool_decide (c = sep) then [] :: split_on sep r
    else match split_on sep r with
         | h :: tl => (c :: h) :: tl
         | [] => [[c]]
         end
  end.

(** [a, b = parts]: unpacking into exactly two names. *)
Definition unpack2 (parts : list text) : result (text * text) :=
  match parts with
  | [a; b] => Ok (a, b)
  | _ => Raise ValueError
  end.

(** ** The web framework, as far as the pages use it *)

(** An HTTP request as a handler sees it: [self.request.path],
    [self.request.query] and [self.request.arguments], the raw values
    received for each field, in order. *)
Record Request : Type := mkRequest {
  path : text;
  query : text;
  arguments : gmap string (list bytes)
}.

Inductive http_method : Type := GET | HEAD | POST.

(** What a handler answers: [self.redirect(url, permanent)] or
    [self.render(template, networks=registry)]. *)
Inductive response : Type :=
  | Redirect (url : text) (permanent : bool)
  | Render (template : string) (registry : gmap pyval loc).

Module Tornado.

Definition slash : N := 47.

(** [tornado.web.addslash], the decorator every page method carries:
<<
      if not self.request.path.endswith("/"):
          if self.request.method in ("GET", "HEAD"):
              uri = self.request.path + "/"
              if self.request.query:
                  uri += "?" + self.request.query
              self.redirect(uri, permanent=True)
              return
          raise HTTPError(404)
      return method(self, *args, **kwargs)
>> *)
Definition addslash (method : http_method) (req : Request)
    (body : M response) : M response :=
  if negb (endswith (path req) [slash]) then
    match method with
    | GET | HEAD =>
      let uri := path req ++ [slash] in
      let uri := match query req with
                 | [] => uri
                 | _ :: _ => uri ++ [63] ++ query req
                 end in
      mret (Redirect uri true)
    | POST => mraise (HTTPError 404)
    end
  else body.

(** [decode_argument]: UTF-8, and [HTTPError(400)] on bytes that are not. *)
Definition decode_argument (value : bytes) : result text :=
  match bytes_decode Utf8 value with
  | Ok t => Ok t
  | Raise UnicodeDecodeError => Raise (HTTPError 400)
  | Raise e => Raise e
  end.

(** The characters of [_remove_control_chars_regex],
    [[\x00-\x08\x0e-\x1f]]. *)
Definition is_control (c : N) : bool := (c <=? 0x08) || in_range 0x0E 0x1F c.

(** The characters [str.strip()] removes ([str.isspace], Python 3.4 on). *)
Definition is_whitespace (c : N) : bool :=
  in_range 0x09 0x0D c || in_range 0x1C 0x20 c
  || (c =? 0x85) || (c =? 0xA0) || (c =? 0x1680)
  || in_range 0x2000 0x200A c || (c =? 0x2028) || (c =? 0x2029)
  || (c =? 0x202F) || (c =? 0x205F) || (c =? 0x3000).

Fixpoint lstrip (t : text) : text :=
  match t with
  | [] => []
  | c :: r => if is_whitespace c then lstrip r else t
  end.

Definition strip (t : text) : text := reverse (lstrip (reverse (lstrip t))).

(** One value of [_get_arguments]: control characters become spaces, then
    the value is stripped. *)
Definition clean (v : text) : text :=
  strip ((λ c, if is_control c then 32 else c) <$> v).

(** [_get_arguments]: every value received for the field is decoded and
    cleaned, in order. *)
Fixpoint get_arguments (values : list bytes) : result (list text) :=
  match values with
  | [] => Ok []
  | v :: r =>
    match decode_argument v with
    | Ok t =>
      match get_arguments r with
      | Ok ts => Ok (clean t :: ts)
      | Raise e => Raise e
      end
    | Raise e => Raise e
    end
  end.

(** [get_argument(name)] without a default: the last value of the field,
    [MissingArgumentError] when there is none. *)
Definition get_argument (req : Request) (name : string) : result text :=
  match get_arguments (default [] (arguments req !! name)) with
  | Ok args =>
    match last args with
    | Some v => Ok v
    | None => Raise MissingArgumentError
    end
  | Raise e => Raise e
  end.

End Tornado.

Module Handlers.

Definition get_argument (req : Request) (name : string) : M text :=
  lift_result (Tornado.get_argument req name).

Definition colon : N := 58.

(** [self.redirect("/")] *)
Definition home : response := Redirect [Tornado.slash] false.


(** [EditHandler.post], under [@tornado.web.addslash]:
<<
      self.bouncer.remove_network(network_name)
      network_name = self.get_argument("networkname")
      ...
      hostname, port = network_address.split(":")
      self.bouncer.add_network(network=network_name, ..., password=password)
      self.redirect("/")
>> *)
Definition EditHandler_post (req : Request) (network_name : text)
    : M response :=
  Tornado.addslash POST req
    (Bouncer.remove_network (PStr network_name) ;;;
     network_name <- get_argument req "networkname" ;;
     network_address <- get_argument req "networkaddress" ;;
     nickname <- get_argument req "nickname" ;;
     ident <- get_argument req "ident" ;;
     password <- get_argument req "password" ;;
     hp <- lift_result (unpack2 (split_on colon network_address)) ;;
     Bouncer.add_network (PStr network_name) (PStr (fst hp)) (PStr (snd hp))
       (PStr nickname) (PStr ident) (PStr ident)
       (Some (PStr password)) None ;;;
     mret home)%method.


(** [AddHandler.post], under [@tornado.web.addslash]:
<<
      network_name = self.get_argument("networkname")
      ...
      hostname, port = network_address.split(":")
      if network_name not in self.bouncer.networks:
          self.bouncer.add_network(network=network_name, ...)
      self.redirect("/")
>> *)
Definition AddHandler_post (req : Request) : M response :=
  Tornado.addslash POST req
    (network_name <- get_argument req "networkname" ;;
     network_address <- get_argument req "networkaddress" ;;
     nickname <- get_argument req "nickname" ;;
     ident <- get_argument req "ident" ;;
     password <- get_argument req "password" ;;
     hp <- lift_result (unpack2 (split_on colon network_address)) ;;
     (λ s,
       if bool_decide (PStr network_name ∉ dom (networks s))
       then Bouncer.add_network (PStr network_name)
              (PStr (fst hp)) (PStr (snd hp))
              (PStr nickname) (PStr ident) (PStr ident)
              (Some (PStr password)) None s
       else mret tt s) ;;;
     mret home)%method.

End Handlers.

(** ** Auxiliary definitions used by the statements *)

(** The state the store is left in by the upsert of [add_network]. *)
Definition upsert (d : Datastore) (name : pyval) (kw : kwargs) : Datastore :=
  {| password := password d; stored := <[name := kw]> (stored d) |}.

(** The persistence half of [remove_network]. *)
Definition forget (name : pyval) (s : State) : State :=
  match datastore s with
  | Some d =>
    set_datastore (Some (Datastore.remove_network d name))
      (emit (StoreRemoveNetwork name) s)
  | None => s
  end.

(** The request was made on a path with a trailing slash. *)
Definition slashed (req : Request) : Prop :=
  endswith (path req) [Tornado.slash] = true.

(** A request that carries every field the pages read, with an address of
    the form [host:port]: what [get_argument] returns for each. *)
Definition form_fields (req : Request)
    (name addr nick ident pw host port : text) : Prop :=
  Tornado.get_argument req "networkname" = Ok name
  ∧ Tornado.get_argument req "networkaddress" = Ok addr
  ∧ Tornado.get_argument req "nickname" = Ok nick
  ∧ Tornado.get_argument req "ident" = Ok ident
  ∧ Tornado.get_argument req "password" = Ok pw
  ∧ unpack2 (split_on Handlers.colon addr) = Ok (host, port).



(** The call both pages make once the form is read. *)
Definition page_add_network (name nick ident pw host port : text)
    : M unit :=
  Bouncer.add_network (PStr name) (PStr host) (PStr port)
    (PStr nick) (PStr ident) (PStr ident) (Some (PStr pw)) None.

(** [kw[k]] for a key that is there, [None] otherwise. *)
Definition field (kw : kwargs) (k : string) : pyval :=
  default PNone (kw !! k).

(** A stored record that binds to the signature of [add_network]: the
    six required keywords are there and no unknown keyword is. *)
Definition binds (kw : kwargs) : Prop :=
  bool_decide (dom kw ⊆ Bouncer.add_network_keywords) = true
  ∧ is_Some (kw !! "network") ∧ is_Some (kw !! "hostname")
  ∧ is_Some (kw !! "port") ∧ is_Some (kw !! "nickname")
  ∧ is_Some (kw !! "username") ∧ is_Some (kw !! "realname").

(** The data-integrity assumption on the store: each record is a
    credentials record and is kept under its own network name. *)
Definition store_wf (d : Datastore) : Prop :=
  map_Forall (λ name kw, kw !! "network" = Some name ∧ binds kw) (stored d).

(** The dictionary [add_network] rebuilds from a loaded record. *)
Definition rebuilt (kw : kwargs) : kwargs :=
  Bouncer.credentials_dict (field kw "network") (field kw "hostname")
    (field kw "port") (field kw "nickname") (field kw "username")
    (field kw "realname") (field kw "password").

(** What the reload of one record asks of the world. *)
Definition reload_events (kw : kwargs) : list event :=
  [StoreAddNetwork (rebuilt kw);
   Dial (field kw "hostname") (field kw "port") (rebuilt kw)].

(** ** Concrete data used by the examples *)

Definition freenode : pyval := PStr (text_of_string "freenode").

Definition bytes_of_string (s : string) : bytes :=
  String.list_byte_of_string s.

(** The form of the scenario, posted on the given path. *)
Definition form_on (p : string) (address : string) : Request :=
  {| path := text_of_string p; query := [];
     arguments :=
       <["networkname" := [bytes_of_string "freenode"]]>
       (<["networkaddress" := [bytes_of_string address]]>
       (<["nickname" := [bytes_of_string "alice"]]>
       (<["ident" := [bytes_of_string "alice"]]>
       (<["password" := [bytes_of_string "secret"]]> ∅)))) |}.

Definition sample_form : Request := form_on "/add/" "irc.example.org:6667".

Definition sample_session : Network :=
  {| connected := true; transport := {| written := []; closed := false |} |}.

Definition empty_store : Datastore := {| password := None; stored := ∅ |}.

(** A bouncer with one live session registered under ["freenode"]. *)
Definition sample_state (d : option Datastore) : State :=
  {| clients := ∅; networks := {[ freenode := 1%positive ]};
     datastore := d; heap := {[ 1%positive := sample_session ]};
     trace := [] |}.

(** The record [add_network] writes for the scenario of the specification,
    and a store that holds it together with a password. *)
Definition freenode_record : kwargs :=
  Bouncer.credentials_dict freenode
    (PStr (text_of_string "irc.example.org")) (PInt 6667)
    (PStr (text_of_string "alice")) (PStr (text_of_string "alice"))
    (PStr (text_of_string "Alice")) PNone.

Definition sample_store : Datastore :=
  {| password := Some (text_of_string "hunter2");
     stored := {[ freenode := freenode_record ]} |}.

(** ** Sanity checks of the model on concrete inputs *)

Example decode_ascii :
  Connection.decode [x50; x49; x4e; x47] = Ok (text_of_string "PING").
Proof. reflexivity. Qed.

Example decode_utf8_two : Connection.decode [xc3; xa9] = Ok [0xE9].
Proof. reflexivity. Qed.

Example decode_utf8_three : Connection.decode [xe2; x82; xac] = Ok [0x20AC].
Proof. reflexivity. Qed.

Example decode_utf8_four :
  Connection.decode [xf0; x9f; x98; x80] = Ok [0x1F600].
Proof. reflexivity. Qed.

Example decode_fallback : Connection.decode [xe9; x21] = Ok [0xE9; 0x21].
Proof. reflexivity. Qed.

Example decode_overlong : Connection.decode [xc0; x80] = Ok [0xC0; 0x80].
Proof. reflexivity. Qed.

Example decode_surrogate :
  Connection.decode [xed; xa0; x80] = Ok [0xED; 0xA0; 0x80].
Proof. reflexivity. Qed.

Example encode_euro : str_encode [0x20AC] = Ok [xe2; x82; xac].
Proof. reflexivity. Qed.

Example encode_emoji : str_encode [0x1F600] = Ok [xf0; x9f; x98; x80].
Proof. reflexivity. Qed.

Example normalize_adds :
  Connection.normalize (text_of_string "PING") Connection.CRLF
  = text_of_string "PING" ++ [13; 10].
Proof. reflexivity. Qed.

Example normalize_keeps :
  Connection.normalize (text_of_string "PING" ++ [13; 10]) Connection.CRLF
  = text_of_string "PING" ++ [13; 10].
Proof. reflexivity. Qed.

Example split_address :
  split_on Handlers.colon (text_of_string "irc.example.org:6667")
  = [text_of_string "irc.example.org"; text_of_string "6667"].
Proof. reflexivity. Qed.

Example split_none :
  split_on Handlers.colon (text_of_string "host") = [text_of_string "host"].
Proof. reflexivity. Qed.

Example add_page_fresh :
  trace (fst (Handlers.AddHandler_post sample_form
                (Bouncer.init_state None)))
  = [Dial (PStr (text_of_string "irc.example.org"))
          (PStr (text_of_string "6667"))
          (Bouncer.credentials_dict freenode
             (PStr (text_of_string "irc.example.org"))
             (PStr (text_of_string "6667"))
             (PStr (text_of_string "alice")) (PStr (text_of_string "alice"))
             (PStr (text_of_string "alice"))
             (PStr (text_of_string "secret")))].
Proof. vm_compute. reflexivity. Qed.

Example add_page_taken :
  trace (fst (Handlers.AddHandler_post sample_form (sample_state None))) = [].
Proof. vm_compute. reflexivity. Qed.

Example add_page_no_slash :
  Handlers.AddHandler_post (form_on "/add" "irc.example.org:6667")
    (Bouncer.init_state None)
  = (Bouncer.init_state None, Raise (HTTPError 404)).
Proof. vm_compute. reflexivity. Qed.

Example get_argument_strips :
  Tornado.get_argument
    {| path := []; query := [];
       arguments := {[ "nickname"%string := [[x20; x61; x07; x62; x0a]] ]} |}
    "nickname"
  = Ok [0x61; 0x20; 0x62].
Proof. vm_compute. reflexivity. Qed.

Example get_argument_invalid :
  Tornado.get_argument
    {| path := []; query := [];
       arguments := {[ "nickname"%string := [[xff]; [x61]] ]} |}
    "nickname"
  = Raise (HTTPError 400).
Proof. vm_compute. reflexivity. Qed.

(** ** Framing capability *)

Section Framing.

Implicit Types (t e line ending : text) (b : bytes).

Lemma bytes_decode_utf8_raises b err :
  bytes_decode Utf8 b = Raise err → err = UnicodeDecodeError.
Proof.
  unfold bytes_decode. destruct (utf8_decode b); congruence.
Qed.

Lemma latin1_code_points b :
  Forall (λ c, c < 256) (Byte.to_N <$> b).
Proof.
  induction b as [|x b IH]; simpl; constructor; [|exact IH].
  pose proof (Byte.to_N_bounded x). lia.
Qed.

Lemma endswith_true line ending :
  endswith line ending = true ↔ ending `suffix_of` line.
Proof.
  unfold endswith. rewrite andb_true_iff, Nat.leb_le, bool_decide_eq_true.
  split.
  - intros [_ Hdrop].
    exists (take (length line - length ending) line).
    rewrite <- Hdrop at 2. symmetry. apply take_drop.
  - intros [k ->]. rewrite length_app. split; [lia|].
    replace (length k + length ending - length ending)%nat
      with (length k) by lia.
    apply drop_app_length.
Qed.

Lemma normalize_suffix line ending :
  ending `suffix_of` Connection.normalize line ending.
Proof.
  unfold Connection.normalize.
  destruct (endswith line ending) eqn:He; simpl.
  - by apply endswith_true.
  - by exists line.
Qed.

Lemma normalize_terminated line ending :
  endswith line ending = true → Connection.normalize line ending = line.
Proof. unfold Connection.normalize. by intros ->. Qed.

Lemma join3 sep (a b c : text) :
  join sep [a; b; c] = a ++ sep ++ b ++ sep ++ c.
Proof. reflexivity. Qed.

End Framing.

(** C6.  For every byte sequence [b], [decode b] returns a text and does
    not raise.  UTF-8 is tried first and its result is returned when it
    succeeds; the only error it can raise is a Unicode decode error, and then
    the result is the Latin-1 decoding of [b], which is defined for every
    byte sequence: one code point below 256 per byte. *)
Theorem decode_never_raises (b : bytes) :
  returns (Connection.decode b)
  ∧ match bytes_decode Utf8 b with
    | Ok t => Connection.decode b = Ok t
    | Raise err =>
      err = UnicodeDecodeError
      ∧ Connection.decode b = bytes_decode Latin1 b
    end
  ∧ bytes_decode Latin1 b = Ok (Byte.to_N <$> b)
  ∧ length (Byte.to_N <$> b) = length b
  ∧ Forall (λ c, c < 256) (Byte.to_N <$> b).
Proof.
  assert (Hcases :
    match bytes_decode Utf8 b with
    | Ok t => Connection.decode b = Ok t
    | Raise err =>
      err = UnicodeDecodeError
      ∧ Connection.decode b = bytes_decode Latin1 b
    end).
  { unfold Connection.decode.
    destruct (bytes_decode Utf8 b) as [t|err] eqn:Hu; [done|].
    apply bytes_decode_utf8_raises in Hu as ->. done. }
  split_and!.
  - destruct (bytes_decode Utf8 b) as [t|err].
    + by exists t.
    + destruct Hcases as [_ ->]. by eexists.
  - exact Hcases.
  - reflexivity.
  - apply length_fmap.
  - apply latin1_code_points.
Qed.

(** C7.  For every text [t] and terminator [e], [normalize t e] ends with
    [e], and normalising twice is the same as normalising once. *)
Theorem normalize_ends_with_and_idempotent (t e : text) :
  endswith (Connection.normalize t e) e = true
  ∧ e `suffix_of` Connection.normalize t e
  ∧ Connection.normalize (Connection.normalize t e) e
    = Connection.normalize t e.
Proof.
  assert (Hend : endswith (Connection.normalize t e) e = true)
    by (apply endswith_true, normalize_suffix).
  split_and!.
  - exact Hend.
  - apply normalize_suffix.
  - by apply normalize_terminated.
Qed.

Section Encoding.

Lemma utf8_encode_cp_scalar (c : N) :
  is_scalar c = true → is_Some (utf8_encode_cp c).
Proof.
  unfold is_scalar, utf8_encode_cp.
  rewrite andb_true_iff, negb_true_iff. intros [Hmax ->]. rewrite Hmax.
  repeat case_match; by eexists.
Qed.

Lemma utf8_encode_cp_surrogate (c : N) :
  is_surrogate c = true → utf8_encode_cp c = None.
Proof.
  intros Hs. unfold utf8_encode_cp. rewrite Hs.
  unfold is_surrogate in Hs.
  apply andb_true_iff in Hs as [Hlo%N.leb_le Hhi%N.leb_le].
  assert (H1 : (c <? 0x80) = false) by (apply N.ltb_ge; lia).
  assert (H2 : (c <? 0x800) = false) by (apply N.ltb_ge; lia).
  assert (H3 : (c <? 0x10000) = true) by (apply N.ltb_lt; lia).
  by rewrite H1, H2, H3.
Qed.

Lemma utf8_encode_scalar (t : text) :
  Forall (λ c, is_scalar c = true) t → is_Some (utf8_encode t).
Proof.
  induction 1 as [|c t Hc _ IH]; simpl; [by eexists|].
  destruct (utf8_encode_cp_scalar c Hc) as [bs ->].
  destruct IH as [br ->]. by eexists.
Qed.

Lemma str_encode_scalar (t : text) :
  Forall (λ c, is_scalar c = true) t → returns (str_encode t).
Proof.
  intros Ht. unfold str_encode.
  destruct (utf8_encode_scalar t Ht) as [b ->]. by exists b.
Qed.

Lemma normalize_scalar (t e : text) :
  Forall (λ c, is_scalar c = true) t →
  Forall (λ c, is_scalar c = true) e →
  Forall (λ c, is_scalar c = true) (Connection.normalize t e).
Proof.
  intros Ht He. unfold Connection.normalize.
  destruct (negb (endswith t e)); [by apply Forall_app|done].
Qed.

End Encoding.

(** C8, as the specification words it, fails on a fragment that holds a lone
    surrogate code point, which a Python [str] may: [encode()] raises
    [UnicodeEncodeError] before [transport.write] is reached, so nothing is
    written. *)
Lemma send_surrogate_writes_nothing :
  let tr := {| written := []; closed := false |} in
  Connection.send tr [[0xD800]; text_of_string "a"; text_of_string "b"]
  = (tr, Raise UnicodeEncodeError)
  ∧ ¬ ∃ data,
      written (fst (Connection.send tr
                      [[0xD800]; text_of_string "a"; text_of_string "b"]))
      = written tr ++ [data].
Proof.
  split; [reflexivity|].
  intros [data Hw]. vm_compute in Hw. discriminate.
Qed.

(** C8, amended.  For all text fragments [a], [b], [c] made of Unicode
    scalar values (no surrogate code points), [send(a, b, c)] does not raise
    and performs exactly one transport write; the payload is the UTF-8
    encoding of [normalize(a + " " + b + " " + c)], whose text ends with the
    terminator. *)
Theorem send_writes_once (tr : Transport) (a b c : text)
    (Ha : Forall (λ x, is_scalar x = true) a)
    (Hb : Forall (λ x, is_scalar x = true) b)
    (Hc : Forall (λ x, is_scalar x = true) c) :
  let line := Connection.normalize (a ++ [32] ++ b ++ [32] ++ c)
                Connection.CRLF in
  ∃ data,
    str_encode line = Ok data
    ∧ utf8_encode line = Some data
    ∧ Connection.send tr [a; b; c] = (Transport_write tr data, Ok tt)
    ∧ written (fst (Connection.send tr [a; b; c])) = written tr ++ [data]
    ∧ closed (fst (Connection.send tr [a; b; c])) = closed tr
    ∧ Connection.CRLF `suffix_of` line.
Proof.
  intros line.
  assert (Hline : Forall (λ x, is_scalar x = true) line).
  { apply normalize_scalar.
    - repeat (apply Forall_app; split); try done; by repeat constructor.
    - by repeat constructor. }
  destruct (utf8_encode_scalar line Hline) as [data Hdata].
  exists data.
  assert (Hsend : Connection.send tr [a; b; c]
                  = (Transport_write tr data, Ok tt)).
  { unfold Connection.send. rewrite join3. fold line.
    unfold str_encode. by rewrite Hdata. }
  split_and!.
  - unfold str_encode. by rewrite Hdata.
  - exact Hdata.
  - exact Hsend.
  - by rewrite Hsend.
  - by rewrite Hsend.
  - apply normalize_suffix.
Qed.

Lemma send_writes_once_witness :
  ∃ data,
    str_encode (Connection.normalize
                  (text_of_string "PRIVMSG" ++ [32] ++ text_of_string "#chan"
                   ++ [32] ++ [0x3A; 0xE9])
                  Connection.CRLF) = Ok data
    ∧ Connection.send {| written := []; closed := false |}
        [text_of_string "PRIVMSG"; text_of_string "#chan"; [0x3A; 0xE9]]
      = (Transport_write {| written := []; closed := false |} data, Ok tt).
Proof.
  destruct (send_writes_once {| written := []; closed := false |}
              (text_of_string "PRIVMSG") (text_of_string "#chan")
              [0x3A; 0xE9])
    as (data & H1 & _ & H3 & _).
  - unfold text_of_string; simpl. repeat constructor.
  - unfold text_of_string; simpl. repeat constructor.
  - repeat constructor.
  - exists data. split; [exact H1|exact H3].
Defined.

(** ** Relay orchestrator: [add_network] *)

Section AddNetwork.

Implicit Types (s : State) (d : Datastore) (kw : kwargs).

Lemma credentials_dict_network n h p ni u r pw :
  Bouncer.credentials_dict n h p ni u r pw !! "network" = Some n.
Proof. unfold Bouncer.credentials_dict. by simplify_map_eq. Qed.

Lemma credentials_dict_usermode n h p ni u r pw :
  Bouncer.credentials_dict n h p ni u r pw !! "usermode" = None.
Proof. unfold Bouncer.credentials_dict. by simplify_map_eq. Qed.

Lemma credentials_dict_dom n h p ni u r pw :
  dom (Bouncer.credentials_dict n h p ni u r pw)
  = ({[ "network"; "nickname"; "username"; "realname"; "hostname"; "port";
        "password" ]} : gset string).
Proof.
  unfold Bouncer.credentials_dict.
  rewrite !dom_insert_L, dom_empty_L. set_solver.
Qed.

(** What one call of [add_network] does, case by case. *)
Lemma add_network_unfold n h p ni u r pw um s :
  let c := Bouncer.credentials_dict n h p ni u r (default PNone pw) in
  Bouncer.add_network n h p ni u r pw um s
  = match datastore s with
    | Some d =>
      (emit (Dial h p c)
         (set_datastore (Some (upsert d n c))
            (emit (StoreAddNetwork c) s)), Ok tt)
    | None => (emit (Dial h p c) s, Ok tt)
    end.
Proof.
  intros c. unfold Bouncer.add_network. fold c.
  destruct (datastore s) as [d|] eqn:Hd; [|reflexivity].
  unfold mbind, modify, lift_result, Datastore.add_network. simpl.
  unfold c at 1. rewrite credentials_dict_network. reflexivity.
Qed.

Lemma add_network_returns n h p ni u r pw um s :
  snd (Bouncer.add_network n h p ni u r pw um s) = Ok tt.
Proof.
  rewrite add_network_unfold. by destruct (datastore s).
Qed.

Lemma add_network_networks n h p ni u r pw um s :
  networks (fst (Bouncer.add_network n h p ni u r pw um s)) = networks s.
Proof.
  rewrite add_network_unfold. by destruct (datastore s).
Qed.

Lemma add_network_heap n h p ni u r pw um s :
  heap (fst (Bouncer.add_network n h p ni u r pw um s)) = heap s.
Proof.
  rewrite add_network_unfold. by destruct (datastore s).
Qed.

Lemma add_network_clients n h p ni u r pw um s :
  clients (fst (Bouncer.add_network n h p ni u r pw um s)) = clients s.
Proof.
  rewrite add_network_unfold. by destruct (datastore s).
Qed.

Lemma add_network_trace n h p ni u r pw um s :
  let c := Bouncer.credentials_dict n h p ni u r (default PNone pw) in
  trace (fst (Bouncer.add_network n h p ni u r pw um s))
  = trace s ++ (if datastore s is Some _
                then [StoreAddNetwork c; Dial h p c]
                else [Dial h p c]).
Proof.
  intros c. rewrite add_network_unfold. fold c.
  destruct (datastore s); simpl; [|done]. by rewrite <- app_assoc.
Qed.

Lemma add_network_datastore n h p ni u r pw um s :
  let c := Bouncer.credentials_dict n h p ni u r (default PNone pw) in
  datastore (fst (Bouncer.add_network n h p ni u r pw um s))
  = (λ d, upsert d n c) <$> datastore s.
Proof.
  intros c. rewrite add_network_unfold. fold c.
  destruct (datastore s) eqn:Hd; simpl; [done|]. by rewrite Hd.
Qed.

End AddNetwork.

(** C1.  The record that [add_network] hands to the store when persistence
    is available holds the network name, hostname, port, nickname, username,
    realname and password, and nothing else: the [usermode] argument, here
    supplied as 8, is not in the dictionary, neither in the request issued to
    the store nor in the record the store keeps under the network name. *)
Theorem add_network_record_drops_usermode :
  let host := PStr (text_of_string "irc.example.org") in
  let alice := PStr (text_of_string "alice") in
  let s' := fst (Bouncer.add_network freenode host (PInt 6667)
                   alice alice alice None (Some (PInt 8))
                   (Bouncer.init_state (Some empty_store))) in
  ∃ kw,
    trace s' = [StoreAddNetwork kw; Dial host (PInt 6667) kw]
    ∧ (datastore s' ≫= λ d, stored d !! freenode) = Some kw
    ∧ kw !! "network" = Some freenode
    ∧ kw !! "hostname" = Some host
    ∧ kw !! "port" = Some (PInt 6667)
    ∧ kw !! "nickname" = Some alice
    ∧ kw !! "username" = Some alice
    ∧ kw !! "realname" = Some alice
    ∧ kw !! "password" = Some PNone
    ∧ kw !! "usermode" = None
    ∧ "usermode" ∉ dom kw.
Proof.
  intros host alice s'.
  exists (Bouncer.credentials_dict freenode host (PInt 6667)
            alice alice alice PNone).
  assert (Hs' : s' = fst (Bouncer.add_network freenode host (PInt 6667)
                   alice alice alice None (Some (PInt 8))
                   (Bouncer.init_state (Some empty_store)))) by done.
  rewrite add_network_unfold in Hs'. simpl in Hs'. subst s'. simpl.
  split_and!; try done.
  all: try (by rewrite lookup_insert_eq).
  all: rewrite credentials_dict_dom; set_solver.
Qed.

(** C4.  When persistence is available, [add_network] issues the write of
    the credentials to the store strictly before the dial: these are the only
    two requests it issues, in this order, and it returns normally. *)
Theorem add_network_writes_before_dial
    (n h p ni u r : pyval) (pw um : option pyval) (s : State) (d : Datastore)
    (Hd : datastore s = Some d) :
  let c := Bouncer.credentials_dict n h p ni u r (default PNone pw) in
  let s' := fst (Bouncer.add_network n h p ni u r pw um s) in
  snd (Bouncer.add_network n h p ni u r pw um s) = Ok tt
  ∧ trace s' = trace s ++ [StoreAddNetwork c; Dial h p c]
  ∧ (∃ i j : nat,
       (i < j)%nat
       ∧ trace s' !! i = Some (StoreAddNetwork c)
       ∧ trace s' !! j = Some (Dial h p c)
       ∧ (length (trace s) ≤ i)%nat)
  ∧ (datastore s' ≫= λ d', stored d' !! n) = Some c.
Proof.
  intros c s'.
  assert (Htr : trace s' = trace s ++ [StoreAddNetwork c; Dial h p c]).
  { unfold s'. rewrite add_network_trace. fold c. by rewrite Hd. }
  split_and!.
  - apply add_network_returns.
  - exact Htr.
  - exists (length (trace s)), (S (length (trace s))).
    rewrite Htr. split_and!; [lia| | |lia].
    + rewrite lookup_app_r by lia. by rewrite Nat.sub_diag.
    + rewrite lookup_app_r by lia.
      by replace (S (length (trace s)) - length (trace s))%nat with 1%nat
        by lia.
  - unfold s'. rewrite add_network_datastore, Hd. simpl.
    apply lookup_insert_eq.
Qed.

Lemma add_network_writes_before_dial_witness :
  let host := PStr (text_of_string "irc.example.org") in
  let alice := PStr (text_of_string "alice") in
  let c := Bouncer.credentials_dict freenode host (PInt 6667)
             alice alice alice PNone in
  trace (fst (Bouncer.add_network freenode host (PInt 6667)
                alice alice alice None None
                (sample_state (Some empty_store))))
  = [StoreAddNetwork c; Dial host (PInt 6667) c].
Proof.
  intros host alice c.
  exact (proj1 (proj2
    (add_network_writes_before_dial freenode host (PInt 6667)
       alice alice alice None None
       (sample_state (Some empty_store)) empty_store eq_refl))).
Defined.

(** C5.  [add_network] never looks at the registry.  Whatever the registry
    and the sessions are, also when a session is already registered under
    the same name, it returns normally, leaves the registry as it is, and
    issues the same requests: the store write when persistence is available,
    then the dial.  Replacing the registry before the call is the same as
    replacing it after. *)
Theorem add_network_ignores_registry
    (n h p ni u r : pyval) (pw um : option pyval) (s : State)
    (reg : gmap pyval loc) (hp : gmap loc Network) :
  let c := Bouncer.credentials_dict n h p ni u r (default PNone pw) in
  let call := Bouncer.add_network n h p ni u r pw um in
  snd (call s) = Ok tt
  ∧ networks (fst (call s)) = networks s
  ∧ heap (fst (call s)) = heap s
  ∧ trace (fst (call s))
    = trace s ++ (if datastore s is Some _
                  then [StoreAddNetwork c; Dial h p c]
                  else [Dial h p c])
  ∧ datastore (fst (call s)) = (λ d, upsert d n c) <$> datastore s
  ∧ call (set_networks reg (set_heap hp s))
    = (set_networks reg (set_heap hp (fst (call s))), Ok tt)
  ∧ call (set_networks (<[n := 1%positive]> reg) s)
    = (set_networks (<[n := 1%positive]> reg) (fst (call s)), Ok tt).
Proof.
  intros c call. unfold call. split_and!.
  - apply add_network_returns.
  - apply add_network_networks.
  - apply add_network_heap.
  - apply add_network_trace.
  - apply add_network_datastore.
  - rewrite !add_network_unfold. simpl. by destruct (datastore s).
  - rewrite !add_network_unfold. simpl. by destruct (datastore s).
Qed.

(** ** Relay orchestrator: [remove_network] *)

Section RemoveNetwork.

Implicit Types (s : State) (d : Datastore).

(** The session after [connected = False] and [transport.close()]. *)
Lemma close_disconnect (n : Network) :
  Bouncer.close_transport (Bouncer.disconnect n)
  = {| connected := false; transport := Transport_close (transport n) |}.
Proof. reflexivity. Qed.

Lemma remove_network_unfold name s :
  Bouncer.remove_network name s
  = match networks s !! name with
    | Some l =>
      (forget name
         (emit (TransportClose l)
            (set_heap
               (alter Bouncer.close_transport l
                  (alter Bouncer.disconnect l (heap s))) s)), Ok tt)
    | None => (forget name s, Ok tt)
    end.
Proof.
  unfold Bouncer.remove_network, forget.
  destruct (networks s !! name) as [l|] eqn:Hl.
  - unfold mbind, modify, mret; simpl.
    by destruct (datastore s).
  - unfold mbind, modify, mret; simpl.
    by destruct (datastore s).
Qed.

Lemma forget_networks name s : networks (forget name s) = networks s.
Proof. unfold forget. by destruct (datastore s). Qed.

Lemma forget_heap name s : heap (forget name s) = heap s.
Proof. unfold forget. by destruct (datastore s). Qed.

Lemma forget_clients name s : clients (forget name s) = clients s.
Proof. unfold forget. by destruct (datastore s). Qed.

Lemma forget_trace name s :
  trace (forget name s)
  = trace s ++ (if datastore s is Some _
                then [StoreRemoveNetwork name] else []).
Proof.
  unfold forget. destruct (datastore s); simpl; [done|].
  by rewrite app_nil_r.
Qed.

Lemma forget_datastore name s :
  datastore (forget name s)
  = (λ d, Datastore.remove_network d name) <$> datastore s.
Proof.
  unfold forget. destruct (datastore s) eqn:Hd; simpl; [done|].
  by rewrite Hd.
Qed.

Lemma remove_network_returns name s :
  snd (Bouncer.remove_network name s) = Ok tt.
Proof.
  rewrite remove_network_unfold. by destruct (networks s !! name).
Qed.

Lemma remove_network_networks name s :
  networks (fst (Bouncer.remove_network name s)) = networks s.
Proof.
  rewrite remove_network_unfold.
  destruct (networks s !! name); simpl; by rewrite forget_networks.
Qed.

Lemma remove_network_clients name s :
  clients (fst (Bouncer.remove_network name s)) = clients s.
Proof.
  rewrite remove_network_unfold.
  destruct (networks s !! name); simpl; by rewrite forget_clients.
Qed.

End RemoveNetwork.

(** C3.  For a name present in the registry, [remove_network] sets the
    [connected] flag of its session to false and closes its transport, and
    does not take the entry out of the registry: the registry map is the
    same after the call, so the name is still a key and every other entry is
    as before; the other session objects and the client collection are
    unchanged. *)
Theorem remove_network_keeps_entry
    (name : pyval) (s : State) (l : loc) (n : Network)
    (Hreg : networks s !! name = Some l)
    (Hobj : heap s !! l = Some n) :
  let s' := fst (Bouncer.remove_network name s) in
  snd (Bouncer.remove_network name s) = Ok tt
  ∧ heap s' !! l
    = Some {| connected := false;
              transport := {| written := written (transport n);
                              closed := true |} |}
  ∧ TransportClose l ∈ trace s'
  ∧ networks s' = networks s
  ∧ networks s' !! name = Some l
  ∧ name ∈ dom (networks s')
  ∧ (∀ l', l' ≠ l → heap s' !! l' = heap s !! l')
  ∧ clients s' = clients s.
Proof.
  intros s'.
  assert (Hs' : s' = forget name
           (emit (TransportClose l)
              (set_heap
                 (alter Bouncer.close_transport l
                    (alter Bouncer.disconnect l (heap s))) s))).
  { unfold s'. rewrite remove_network_unfold. by rewrite Hreg. }
  assert (Hnet : networks s' = networks s)
    by apply remove_network_networks.
  split_and!.
  - apply remove_network_returns.
  - rewrite Hs', forget_heap. simpl.
    rewrite !lookup_alter_eq, Hobj. reflexivity.
  - rewrite Hs', forget_trace. simpl.
    apply elem_of_app; left. apply elem_of_app; right. by constructor.
  - exact Hnet.
  - by rewrite Hnet.
  - rewrite Hnet. apply elem_of_dom. by exists l.
  - intros l' Hne. rewrite Hs', forget_heap. simpl.
    by rewrite !lookup_alter_ne.
  - apply remove_network_clients.
Qed.

Lemma remove_network_keeps_entry_witness :
  let s' := fst (Bouncer.remove_network freenode (sample_state None)) in
  heap s' !! 1%positive
  = Some {| connected := false;
            transport := {| written := []; closed := true |} |}
  ∧ networks s' !! freenode = Some 1%positive.
Proof.
  intros s'.
  destruct (remove_network_keeps_entry freenode (sample_state None)
              1%positive sample_session eq_refl eq_refl)
    as (_ & Hobj & _ & _ & Hkey & _).
  split; [exact Hobj|exact Hkey].
Defined.

(** C9.  For a name absent from the registry, [remove_network] returns
    normally and leaves the registry, the sessions and the clients as they
    are; when persistence is available it still issues one removal request
    for that name to the store, and nothing else. *)
Theorem remove_network_absent
    (name : pyval) (s : State) (Habs : networks s !! name = None) :
  let s' := fst (Bouncer.remove_network name s) in
  snd (Bouncer.remove_network name s) = Ok tt
  ∧ networks s' = networks s
  ∧ heap s' = heap s
  ∧ clients s' = clients s
  ∧ match datastore s with
    | Some d =>
      trace s' = trace s ++ [StoreRemoveNetwork name]
      ∧ datastore s' = Some (Datastore.remove_network d name)
      ∧ (datastore s' ≫= λ d', stored d' !! name) = None
    | None => s' = s
    end.
Proof.
  intros s'.
  assert (Hs' : s' = forget name s).
  { unfold s'. rewrite remove_network_unfold. by rewrite Habs. }
  split_and!.
  - apply remove_network_returns.
  - apply remove_network_networks.
  - by rewrite Hs', forget_heap.
  - apply remove_network_clients.
  - rewrite Hs'. unfold forget.
    destruct (datastore s) as [d|]; [|done].
    simpl. split_and!; [done|done|]. apply lookup_delete_eq.
Qed.

Lemma remove_network_absent_witness :
  let libera := PStr (text_of_string "libera") in
  trace (fst (Bouncer.remove_network libera
                (sample_state (Some empty_store))))
  = [StoreRemoveNetwork libera]
  ∧ networks (fst (Bouncer.remove_network libera
                     (sample_state (Some empty_store))))
    = networks (sample_state (Some empty_store)).
Proof.
  intros libera.
  assert (Habs : networks (sample_state (Some empty_store)) !! libera = None)
    by (vm_compute; reflexivity).
  destruct (remove_network_absent libera
              (sample_state (Some empty_store)) Habs)
    as (_ & Hnet & _ & _ & Htr & _).
  split; [exact Htr|exact Hnet].
Defined.

(** ** Relay orchestrator: startup reload *)

Section Startup.

Implicit Types (s : State) (d : Datastore) (kw : kwargs).

Lemma add_network_kw_binds kw s :
  binds kw →
  Bouncer.add_network_kw kw s
  = Bouncer.add_network (field kw "network") (field kw "hostname")
      (field kw "port") (field kw "nickname") (field kw "username")
      (field kw "realname") (kw !! "password") (kw !! "usermode") s.
Proof.
  intros (Hdom & [n Hn] & [h Hh] & [p Hp] & [ni Hni] & [u Hu] & [r Hr]).
  unfold Bouncer.add_network_kw, field.
  by rewrite Hdom, Hn, Hh, Hp, Hni, Hu, Hr.
Qed.

Lemma add_network_kw_trace kw s d :
  binds kw → datastore s = Some d →
  snd (Bouncer.add_network_kw kw s) = Ok tt
  ∧ trace (fst (Bouncer.add_network_kw kw s)) = trace s ++ reload_events kw
  ∧ is_Some (datastore (fst (Bouncer.add_network_kw kw s)))
  ∧ networks (fst (Bouncer.add_network_kw kw s)) = networks s.
Proof.
  intros Hb Hd. rewrite add_network_kw_binds by done. split_and!.
  - apply add_network_returns.
  - rewrite add_network_trace, Hd. reflexivity.
  - rewrite add_network_datastore, Hd. by eexists.
  - apply add_network_networks.
Qed.

Lemma reload_loop (l : list kwargs) : ∀ s d,
  Forall binds l → datastore s = Some d →
  snd (for_each Bouncer.add_network_kw l s) = Ok tt
  ∧ trace (fst (for_each Bouncer.add_network_kw l s))
    = trace s ++ concat (reload_events <$> l)
  ∧ networks (fst (for_each Bouncer.add_network_kw l s)) = networks s.
Proof.
  induction l as [|kw l IH]; intros s d Hl Hd.
  - simpl. by rewrite app_nil_r.
  - apply Forall_cons in Hl as [Hkw Hl].
    destruct (add_network_kw_trace kw s d Hkw Hd)
      as (Hr & Htr & [d' Hd'] & Hn).
    simpl for_each. unfold mbind.
    destruct (Bouncer.add_network_kw kw s) as [s1 r1]. simpl in *.
    subst r1. destruct (IH s1 d' Hl Hd') as (IHr & IHtr & IHn).
    split_and!; [done| |congruence].
    rewrite IHtr, Htr. simpl. by rewrite <- app_assoc.
Qed.

Lemma reload_events_counts (l : list kwargs) :
  length (filter (λ e, is_store_write e = true)
            (concat (reload_events <$> l))) = length l
  ∧ length (filter (λ e, is_dial e = true)
              (concat (reload_events <$> l))) = length l.
Proof.
  induction l as [|kw l [IHw IHd]]; [done|].
  rewrite fmap_cons. cbn [concat].
  rewrite !filter_app, !length_app, IHw, IHd.
  split; reflexivity.
Qed.

End Startup.

(** C10.  At startup with persistence available, every record loaded from
    the store goes through [add_network]: it is written back to the store
    under its own network name, and only then dialled.  The requests of the
    reload are, record after record, one store write followed by one dial,
    so a store holding N records receives N writes and N dials are issued.
    The store is assumed to keep credentials records under their own names,
    as the data model says. *)
Theorem init_writes_back_every_record
    (d : Datastore) (secret : text) (Hwf : store_wf d) :
  let records := map_to_list (stored d) in
  let s' := fst (Bouncer.init (Some d) secret) in
  snd (Bouncer.init (Some d) secret) = Ok tt
  ∧ trace s'
    = (if Bouncer.falsy (password d) then [StoreSetPassword] else [])
      ++ concat (reload_events <$> (snd <$> records))
  ∧ Forall (λ nk, rebuilt (snd nk) !! "network" = Some (fst nk)) records
  ∧ length (filter (λ e, is_store_write e = true) (trace s'))
    = size (stored d)
  ∧ length (filter (λ e, is_dial e = true) (trace s')) = size (stored d)
  ∧ length records = size (stored d).
Proof.
  intros records s'.
  assert (Hrec : Forall (λ nk, snd nk !! "network" = Some (fst nk)
                               ∧ binds (snd nk)) records).
  { apply map_Forall_to_list in Hwf.
    eapply Forall_impl; [exact Hwf|]. by intros [n kw]. }
  assert (Hbinds : Forall binds (snd <$> records)).
  { apply Forall_fmap. eapply Forall_impl; [exact Hrec|].
    by intros [n kw] [_ Hb]. }
  assert (Hlen : length records = size (stored d))
    by apply length_map_to_list.
  destruct (reload_events_counts (snd <$> records)) as [Hw Hdial].
  rewrite length_fmap in Hw, Hdial.
  assert (Hrun :
    snd (Bouncer.init (Some d) secret) = Ok tt
    ∧ trace s'
      = (if Bouncer.falsy (password d) then [StoreSetPassword] else [])
        ++ concat (reload_events <$> (snd <$> records))).
  { unfold s', Bouncer.init, Bouncer.init_body. simpl.
    unfold Datastore.get_password, Datastore.get_networks, mbind.
    fold records.
    destruct (Bouncer.falsy (password d)); simpl.
    - edestruct (reload_loop (snd <$> records)) as (Hr & Htr & _);
        [exact Hbinds| |].
      2:{ split; [|exact Htr].
          destruct (for_each _ _ _) as [s1 r1]. simpl in *. by subst r1. }
      reflexivity.
    - edestruct (reload_loop (snd <$> records)) as (Hr & Htr & _);
        [exact Hbinds| |].
      2:{ split; [|exact Htr].
          destruct (for_each _ _ _) as [s1 r1]. simpl in *. by subst r1. }
      reflexivity. }
  destruct Hrun as [Hok Htr].
  split_and!.
  - exact Hok.
  - exact Htr.
  - eapply Forall_impl; [exact Hrec|]. intros [n kw] [Hn _]. simpl in *.
    unfold rebuilt. rewrite credentials_dict_network.
    unfold field. by rewrite Hn.
  - rewrite Htr, filter_app, length_app, Hw, <- Hlen.
    by destruct (Bouncer.falsy (password d)).
  - rewrite Htr, filter_app, length_app, Hdial, <- Hlen.
    by destruct (Bouncer.falsy (password d)).
  - exact Hlen.
Qed.

Lemma init_writes_back_every_record_witness :
  snd (Bouncer.init (Some sample_store) []) = Ok tt
  ∧ trace (fst (Bouncer.init (Some sample_store) []))
    = [StoreAddNetwork freenode_record;
       Dial (PStr (text_of_string "irc.example.org")) (PInt 6667)
         freenode_record].
Proof.
  assert (Hwf : store_wf sample_store).
  { unfold store_wf, sample_store. simpl. apply map_Forall_singleton.
    split; [vm_compute; reflexivity|].
    unfold binds. split_and!;
      [vm_compute; reflexivity | eexists; vm_compute; reflexivity ..]. }
  destruct (init_writes_back_every_record sample_store [] Hwf)
    as (Hok & Htr & _).
  split; [exact Hok|].
  rewrite Htr. vm_compute. reflexivity.
Defined.

(** ** Further properties of the orchestrator *)

Section Lifecycle.

Implicit Types (s : State) (d : Datastore) (n h p ni u r : pyval).

Lemma datastore_eta d : {| password := password d; stored := stored d |} = d.
Proof. by destruct d. Qed.

Lemma close_disconnect_idemp (x : Network) :
  Bouncer.close_transport (Bouncer.disconnect
    (Bouncer.close_transport (Bouncer.disconnect x)))
  = Bouncer.close_transport (Bouncer.disconnect x).
Proof. reflexivity. Qed.

(** The session objects after [remove_network], in one step. *)
Lemma remove_network_heap name s :
  heap (fst (Bouncer.remove_network name s))
  = match networks s !! name with
    | Some l =>
      alter (λ x, Bouncer.close_transport (Bouncer.disconnect x)) l (heap s)
    | None => heap s
    end.
Proof.
  rewrite remove_network_unfold.
  destruct (networks s !! name) as [l|]; simpl; rewrite forget_heap; [|done].
  simpl. by rewrite alter_alter_eq.
Qed.

Lemma remove_network_datastore name s :
  datastore (fst (Bouncer.remove_network name s))
  = (λ d, Datastore.remove_network d name) <$> datastore s.
Proof.
  rewrite remove_network_unfold.
  destruct (networks s !! name); simpl; by rewrite forget_datastore.
Qed.

Lemma remove_network_trace name s :
  trace (fst (Bouncer.remove_network name s))
  = trace s
    ++ (if networks s !! name is Some l then [TransportClose l] else [])
    ++ (if datastore s is Some _ then [StoreRemoveNetwork name] else []).
Proof.
  rewrite remove_network_unfold.
  destruct (networks s !! name) as [l|]; simpl; rewrite forget_trace; simpl.
  - by rewrite <- app_assoc.
  - done.
Qed.

End Lifecycle.

(** X1.  Adding a network that is not registered and removing it again
    leaves no record of it in the store: the store is what it was with the
    name deleted, hence unchanged when the name was not stored before.  The
    requests issued are the write, the dial and the removal, in this order;
    the dial itself is not taken back. *)
Theorem add_then_remove_network
    (n h p ni u r : pyval) (pw um : option pyval) (s : State) (d : Datastore)
    (Hd : datastore s = Some d) (Hfresh : networks s !! n = None) :
  let c := Bouncer.credentials_dict n h p ni u r (default PNone pw) in
  let s1 := fst (Bouncer.add_network n h p ni u r pw um s) in
  let s2 := fst (Bouncer.remove_network n s1) in
  snd (Bouncer.remove_network n s1) = Ok tt
  ∧ trace s2
    = trace s ++ [StoreAddNetwork c; Dial h p c; StoreRemoveNetwork n]
  ∧ datastore s2
    = Some {| password := password d; stored := delete n (stored d) |}
  ∧ (datastore s2 ≫= λ d', stored d' !! n) = None
  ∧ (stored d !! n = None → datastore s2 = Some d)
  ∧ networks s2 = networks s
  ∧ heap s2 = heap s.
Proof.
  intros c s1 s2.
  assert (Hn1 : networks s1 = networks s) by apply add_network_networks.
  assert (Hd1 : datastore s1 = Some (upsert d n c)).
  { unfold s1. rewrite add_network_datastore. fold c. by rewrite Hd. }
  assert (Hd2 : datastore s2
    = Some {| password := password d; stored := delete n (stored d) |}).
  { unfold s2. rewrite remove_network_datastore, Hd1. simpl.
    unfold Datastore.remove_network, upsert. simpl.
    by rewrite delete_insert_eq. }
  split_and!.
  - apply remove_network_returns.
  - unfold s2. rewrite remove_network_trace, Hn1, Hfresh, Hd1.
    unfold s1. rewrite add_network_trace. fold c. rewrite Hd.
    simpl. by rewrite <- app_assoc.
  - exact Hd2.
  - rewrite Hd2. simpl. apply lookup_delete_eq.
  - intros Hnone. rewrite Hd2, delete_id by done. by rewrite datastore_eta.
  - unfold s2. by rewrite remove_network_networks.
  - unfold s2. rewrite remove_network_heap, Hn1, Hfresh.
    apply add_network_heap.
Qed.

Lemma add_then_remove_network_witness :
  let s := Bouncer.init_state (Some empty_store) in
  datastore
    (fst (Bouncer.remove_network freenode
            (fst (Bouncer.add_network freenode
                    (PStr (text_of_string "irc.example.org")) (PInt 6667)
                    (PStr (text_of_string "alice"))
                    (PStr (text_of_string "alice"))
                    (PStr (text_of_string "Alice")) None None s))))
  = Some empty_store.
Proof.
  intros s.
  destruct (add_then_remove_network freenode
              (PStr (text_of_string "irc.example.org")) (PInt 6667)
              (PStr (text_of_string "alice")) (PStr (text_of_string "alice"))
              (PStr (text_of_string "Alice")) None None s empty_store
              eq_refl eq_refl)
    as (_ & _ & _ & _ & Hback & _).
  apply Hback. reflexivity.
Defined.

(** X2.  Two calls of [add_network] under one name are both carried out:
    two dials are issued, each preceded by its store write, and the store
    keeps a single record under the name, that of the second call. *)
Theorem add_network_twice
    (n h p ni u r h' p' ni' u' r' : pyval) (pw um pw' um' : option pyval)
    (s : State) (d : Datastore) (Hd : datastore s = Some d) :
  let c := Bouncer.credentials_dict n h p ni u r (default PNone pw) in
  let c' := Bouncer.credentials_dict n h' p' ni' u' r' (default PNone pw') in
  let s1 := fst (Bouncer.add_network n h p ni u r pw um s) in
  let s2 := fst (Bouncer.add_network n h' p' ni' u' r' pw' um' s1) in
  snd (Bouncer.add_network n h' p' ni' u' r' pw' um' s1) = Ok tt
  ∧ trace s2
    = trace s ++ [StoreAddNetwork c; Dial h p c;
                  StoreAddNetwork c'; Dial h' p' c']
  ∧ datastore s2 = Some (upsert d n c')
  ∧ (datastore s2 ≫= λ d', stored d' !! n) = Some c'
  ∧ networks s2 = networks s.
Proof.
  intros c c' s1 s2.
  assert (Hd1 : datastore s1 = Some (upsert d n c)).
  { unfold s1. rewrite add_network_datastore. fold c. by rewrite Hd. }
  assert (Hd2 : datastore s2 = Some (upsert d n c')).
  { unfold s2. rewrite add_network_datastore. fold c'. rewrite Hd1. simpl.
    unfold upsert. simpl. by rewrite insert_insert_eq. }
  split_and!.
  - apply add_network_returns.
  - unfold s2. rewrite add_network_trace. fold c'. rewrite Hd1.
    unfold s1. rewrite add_network_trace. fold c. rewrite Hd.
    by rewrite <- app_assoc.
  - exact Hd2.
  - rewrite Hd2. simpl. apply lookup_insert_eq.
  - unfold s2, s1. by rewrite !add_network_networks.
Qed.

Lemma add_network_twice_witness :
  let s := Bouncer.init_state (Some empty_store) in
  let a := PStr (text_of_string "alice") in
  let b := PStr (text_of_string "bob") in
  (datastore
     (fst (Bouncer.add_network freenode a (PInt 6667) b b b None None
             (fst (Bouncer.add_network freenode a (PInt 6667) a a a
                     None None s))))
   ≫= λ d', stored d' !! freenode)
  = Some (Bouncer.credentials_dict freenode a (PInt 6667) b b b PNone).
Proof.
  intros s a b.
  destruct (add_network_twice freenode a (PInt 6667) a a a
              a (PInt 6667) b b b None None None None s empty_store eq_refl)
    as (_ & _ & _ & Hrec & _).
  exact Hrec.
Defined.

(** X3.  [remove_network] is idempotent on the sessions, the registry and
    the store: a second call under the same name changes none of them (it
    only repeats the close and the removal request). *)
Theorem remove_network_twice (name : pyval) (s : State) :
  let s1 := fst (Bouncer.remove_network name s) in
  let s2 := fst (Bouncer.remove_network name s1) in
  snd (Bouncer.remove_network name s1) = Ok tt
  ∧ heap s2 = heap s1
  ∧ networks s2 = networks s1
  ∧ clients s2 = clients s1
  ∧ datastore s2 = datastore s1
  ∧ trace s2
    = trace s1
      ++ (if networks s !! name is Some l then [TransportClose l] else [])
      ++ (if datastore s is Some _ then [StoreRemoveNetwork name] else []).
Proof.
  intros s1 s2.
  assert (Hn1 : networks s1 = networks s) by apply remove_network_networks.
  assert (Hd1 : datastore s1
            = (λ d, Datastore.remove_network d name) <$> datastore s)
    by apply remove_network_datastore.
  split_and!.
  - apply remove_network_returns.
  - unfold s2. rewrite remove_network_heap, Hn1.
    unfold s1. rewrite remove_network_heap.
    destruct (networks s !! name) as [l|]; [|done].
    rewrite alter_alter_eq. apply alter_ext. intros x _.
    apply close_disconnect_idemp.
  - apply remove_network_networks.
  - apply remove_network_clients.
  - unfold s2. rewrite remove_network_datastore, Hd1.
    destruct (datastore s) as [d|]; [|done]. simpl.
    unfold Datastore.remove_network. simpl. by rewrite delete_delete_eq.
  - unfold s2. rewrite remove_network_trace, Hn1, Hd1.
    by destruct (datastore s).
Qed.

(** ** Further properties of the configuration pages *)

Section Splitting.

Implicit Types (t h p : text) (sep : N).

Lemma split_on_nonempty sep t : split_on sep t ≠ [].
Proof.
  destruct t as [|c r]; simpl; [done|].
  case_bool_decide; [done|]. by destruct (split_on sep r).
Qed.

Lemma join_cons sep (x : text) (rest : list text) :
  rest ≠ [] → join [sep] (x :: rest) = x ++ [sep] ++ join [sep] rest.
Proof. by destruct rest. Qed.

(** Joining the parts with the separator gives the text back. *)
Lemma split_on_join sep t : join [sep] (split_on sep t) = t.
Proof.
  induction t as [|c r IH]; simpl; [done|].
  case_bool_decide as Hc.
  - subst c. rewrite join_cons by apply split_on_nonempty.
    simpl. by rewrite IH.
  - destruct (split_on sep r) as [|h tl] eqn:Hs.
    + by apply split_on_nonempty in Hs.
    + destruct tl as [|h' tl'].
      * simpl in *. by rewrite IH.
      * rewrite join_cons by done. rewrite join_cons in IH by done.
        simpl. by rewrite <- IH.
Qed.

(** No part holds the separator. *)
Lemma split_on_parts sep t : Forall (λ part, sep ∉ part) (split_on sep t).
Proof.
  induction t as [|c r IH]; simpl.
  - constructor; [apply not_elem_of_nil|constructor].
  - case_bool_decide as Hc.
    + constructor; [apply not_elem_of_nil|exact IH].
    + destruct (split_on sep r) as [|h tl].
      * constructor; [|constructor].
        intros Hin. apply list_elem_of_singleton in Hin. congruence.
      * apply Forall_cons in IH as [Hh Htl]. constructor; [|exact Htl].
        intros Hin. apply elem_of_cons in Hin as [?|?]; [congruence|done].
Qed.

Lemma split_on_absent sep t : sep ∉ t → split_on sep t = [t].
Proof.
  induction t as [|c r IH]; intros Hno; simpl; [done|].
  apply not_elem_of_cons in Hno as [Hc Hr].
  rewrite bool_decide_eq_false_2 by congruence. by rewrite IH.
Qed.

Lemma split_on_first sep h r :
  sep ∉ h → split_on sep (h ++ sep :: r) = h :: split_on sep r.
Proof.
  induction h as [|c h IH]; intros Hno; simpl.
  - by rewrite bool_decide_eq_true_2.
  - apply not_elem_of_cons in Hno as [Hc Hh].
    rewrite bool_decide_eq_false_2 by congruence. by rewrite IH.
Qed.

End Splitting.

(** X4.  The pages accept a network address exactly when it holds one
    colon: [hostname, port = address.split(":")] succeeds with [(h, p)] if
    and only if the address is [h], a colon, [p], with no colon in [h] or
    [p].  An address without a colon, or with two or more, is a
    [ValueError]. *)
Theorem address_unpacks_iff_one_colon (addr h p : text) :
  unpack2 (split_on Handlers.colon addr) = Ok (h, p)
  ↔ addr = h ++ [Handlers.colon] ++ p
    ∧ Handlers.colon ∉ h ∧ Handlers.colon ∉ p.
Proof.
  split.
  - intros Hun.
    assert (Hs : split_on Handlers.colon addr = [h; p]).
    { destruct (split_on Handlers.colon addr) as [|a [|b [|c l]]];
        simpl in Hun; congruence. }
    pose proof (split_on_join Handlers.colon addr) as Hj.
    pose proof (split_on_parts Handlers.colon addr) as Hp.
    rewrite Hs in Hj, Hp. simpl in Hj.
    apply Forall_cons in Hp as [Hh Hp]. apply Forall_cons in Hp as [Hp _].
    by split_and!.
  - intros (-> & Hh & Hp). simpl.
    rewrite split_on_first by done. by rewrite split_on_absent.
Qed.

(** ** Further properties of the startup *)

Section Reload.

Implicit Types (d : Datastore) (kw : kwargs) (m : gmap pyval kwargs).

(** The store after reloading a list of records, one upsert each. *)
Lemma reload_loop_store (l : list (pyval * kwargs)) : ∀ s d,
  Forall (λ nk, snd nk !! "network" = Some (fst nk) ∧ binds (snd nk)) l →
  NoDup (fst <$> l) →
  datastore s = Some d →
  datastore (fst (for_each Bouncer.add_network_kw (snd <$> l) s))
  = Some {| password := password d;
            stored := list_to_map (prod_map id rebuilt <$> l) ∪ stored d |}.
Proof.
  induction l as [|[n kw] l IH]; intros s d Hl Hnd Hd.
  - simpl. rewrite (left_id_L ∅ (∪)). by rewrite datastore_eta.
  - apply Forall_cons in Hl as [[Hn Hb] Hl]. simpl in Hn, Hb.
    apply NoDup_cons in Hnd as [Hfresh Hnd].
    rewrite fmap_cons. simpl for_each. unfold mbind.
    pose proof (add_network_kw_binds kw s Hb) as Hcall.
    assert (Hname : field kw "network" = n) by (unfold field; by rewrite Hn).
    rewrite Hname in Hcall.
    pose proof (add_network_returns n (field kw "hostname") (field kw "port")
                  (field kw "nickname") (field kw "username")
                  (field kw "realname") (kw !! "password")
                  (kw !! "usermode") s) as Hok.
    pose proof (add_network_datastore n (field kw "hostname")
                  (field kw "port") (field kw "nickname")
                  (field kw "username") (field kw "realname")
                  (kw !! "password") (kw !! "usermode") s) as Hds.
    simpl in Hds. rewrite Hd in Hds. simpl in Hds.
    rewrite <- Hcall in Hok, Hds.
    destruct (Bouncer.add_network_kw kw s) as [s1 r1]. simpl in *. subst r1.
    rewrite (IH s1 _ Hl Hnd Hds). f_equal. simpl. f_equal.
    assert (Hreb : Bouncer.credentials_dict n (field kw "hostname")
                     (field kw "port") (field kw "nickname")
                     (field kw "username") (field kw "realname")
                     (default PNone (kw !! "password")) = rebuilt kw).
    { unfold rebuilt. by rewrite Hname. }
    rewrite Hreb. rewrite <- insert_union_l. symmetry. apply insert_union_r.
    apply not_elem_of_list_to_map_1.
    intros Hin. apply Hfresh.
    apply list_elem_of_fmap in Hin as ([n1 kw1] & Heq1 & Hin).
    apply list_elem_of_fmap in Hin as ([n2 kw2] & Heq2 & Hin).
    simpl in Heq1. unfold prod_map in Heq2. simpl in Heq2.
    assert (Hnn : n = n2) by congruence.
    rewrite Hnn. exact (list_elem_of_fmap_2 fst l (n2, kw2) Hin).
Qed.

Lemma rebuilt_credentials_dict n h p ni u r pw :
  rebuilt (Bouncer.credentials_dict n h p ni u r pw)
  = Bouncer.credentials_dict n h p ni u r pw.
Proof.
  unfold rebuilt, field, Bouncer.credentials_dict. by simplify_map_eq.
Qed.

End Reload.

Section ReloadFrame.

Implicit Types (s : State) (kw : kwargs).

(** Binding a record to [add_network] never touches the registry, the
    clients or the sessions, whether it raises or not. *)
Lemma add_network_kw_frame kw s :
  networks (fst (Bouncer.add_network_kw kw s)) = networks s
  ∧ clients (fst (Bouncer.add_network_kw kw s)) = clients s
  ∧ heap (fst (Bouncer.add_network_kw kw s)) = heap s.
Proof.
  unfold Bouncer.add_network_kw.
  case_bool_decide; [|done].
  repeat case_match; try done.
  split_and!;
    [apply add_network_networks|apply add_network_clients
    |apply add_network_heap].
Qed.

Lemma for_each_frame (l : list kwargs) : ∀ s,
  networks (fst (for_each Bouncer.add_network_kw l s)) = networks s
  ∧ clients (fst (for_each Bouncer.add_network_kw l s)) = clients s
  ∧ heap (fst (for_each Bouncer.add_network_kw l s)) = heap s.
Proof.
  induction l as [|kw l IH]; intros s; [done|].
  simpl. unfold mbind.
  destruct (add_network_kw_frame kw s) as (Hn & Hc & Hh).
  destruct (Bouncer.add_network_kw kw s) as [s1 [[]|e]]; simpl in *.
  - destruct (IH s1) as (IHn & IHc & IHh). split_and!; congruence.
  - done.
Qed.

End ReloadFrame.

(** X8.  What the startup leaves in the store.  A password is generated
    exactly when the store holds none, and one that is there is kept.  Every
    stored record is replaced by the seven-key dictionary [add_network]
    builds from it, under the same name: no name is added or lost, and no
    record holds a [usermode] afterwards.  A store whose records were
    written by [add_network] comes out of the startup unchanged. *)
Theorem init_rewrites_store
    (d : Datastore) (secret : text) (Hwf : store_wf d) :
  let s' := fst (Bouncer.init (Some d) secret) in
  datastore s'
  = Some {| password := if Bouncer.falsy (password d) then Some secret
                        else password d;
            stored := rebuilt <$> stored d |}
  ∧ dom (rebuilt <$> stored d) = dom (stored d)
  ∧ (∀ n kw, (rebuilt <$> stored d) !! n = Some kw →
       kw !! "usermode" = None ∧ kw !! "network" = Some n)
  ∧ ((∀ n kw, stored d !! n = Some kw → rebuilt kw = kw) →
     rebuilt <$> stored d = stored d)
  ∧ networks s' = ∅ ∧ clients s' = ∅ ∧ heap s' = ∅.
Proof.
  intros s'.
  assert (Hrec : Forall (λ nk, snd nk !! "network" = Some (fst nk)
                               ∧ binds (snd nk)) (map_to_list (stored d))).
  { apply map_Forall_to_list in Hwf.
    eapply Forall_impl; [exact Hwf|]. by intros [n kw]. }
  assert (Hbinds : Forall binds (snd <$> map_to_list (stored d))).
  { apply Forall_fmap. eapply Forall_impl; [exact Hrec|].
    by intros [n kw] [_ Hb]. }
  assert (Hmap : list_to_map (prod_map id rebuilt <$> map_to_list (stored d))
                 ∪ stored d = rebuilt <$> stored d).
  { rewrite list_to_map_fmap, list_to_map_to_list.
    apply map_eq. intros i. rewrite lookup_union, lookup_fmap.
    by destruct (stored d !! i). }
  pose proof (NoDup_fst_map_to_list (stored d)) as Hnd.
  assert (Hrun : s' = fst (for_each Bouncer.add_network_kw
                             (snd <$> map_to_list (stored d))
                             (if Bouncer.falsy (password d)
                              then set_datastore
                                     (Some (Datastore.set_password secret d))
                                     (emit StoreSetPassword
                                        (Bouncer.init_state (Some d)))
                              else Bouncer.init_state (Some d)))).
  { unfold s', Bouncer.init, Bouncer.init_body. simpl.
    unfold Datastore.get_password, Datastore.get_networks, mbind.
    by destruct (Bouncer.falsy (password d)). }
  split_and!.
  - rewrite Hrun. destruct (Bouncer.falsy (password d)).
    + rewrite (reload_loop_store _
                 (set_datastore (Some (Datastore.set_password secret d))
                    (emit StoreSetPassword (Bouncer.init_state (Some d))))
                 (Datastore.set_password secret d) Hrec Hnd eq_refl).
      simpl. by rewrite Hmap.
    + rewrite (reload_loop_store _ (Bouncer.init_state (Some d)) d
                 Hrec Hnd eq_refl).
      by rewrite Hmap.
  - apply dom_fmap_L.
  - intros n kw Hlook. rewrite lookup_fmap in Hlook.
    destruct (stored d !! n) as [kw0|] eqn:Hkw0; [|done].
    simpl in Hlook. injection Hlook as <-.
    destruct (Hwf n kw0 Hkw0) as [Hname _].
    unfold rebuilt. rewrite credentials_dict_usermode.
    rewrite credentials_dict_network. unfold field. by rewrite Hname.
  - intros Hsame. apply map_eq. intros i. rewrite lookup_fmap.
    destruct (stored d !! i) as [kw|] eqn:Hkw; [|done].
    simpl. by rewrite (Hsame i kw Hkw).
  - rewrite Hrun, (proj1 (for_each_frame _ _)).
    by destruct (Bouncer.falsy (password d)).
  - rewrite Hrun, (proj1 (proj2 (for_each_frame _ _))).
    by destruct (Bouncer.falsy (password d)).
  - rewrite Hrun, (proj2 (proj2 (for_each_frame _ _))).
    by destruct (Bouncer.falsy (password d)).
Qed.

Lemma init_rewrites_store_witness :
  datastore (fst (Bouncer.init (Some sample_store) [])) = Some sample_store.
Proof.
  assert (Hwf : store_wf sample_store).
  { unfold store_wf, sample_store. simpl. apply map_Forall_singleton.
    split; [vm_compute; reflexivity|].
    unfold binds. split_and!;
      [vm_compute; reflexivity | eexists; vm_compute; reflexivity ..]. }
  destruct (init_rewrites_store sample_store [] Hwf) as (Hds & _).
  rewrite Hds. vm_compute. reflexivity.
Defined.

(** ** Further properties of the framing: the UTF-8 codec *)

Section Bits.

Lemma byte_to_of_N (x : N) : x < 256 → Byte.to_N (byte_of_N x) = x.
Proof.
  intros Hx. unfold byte_of_N. rewrite N.mod_small by done.
  destruct (Byte.of_N x) as [b|] eqn:Hb; simpl.
  - by apply Byte.to_of_N.
  - apply Byte.of_N_None_iff in Hb. lia.
Qed.

Lemma land_shiftl_low (a k b : N) : b < 2 ^ k → N.land (N.shiftl a k) b = 0.
Proof.
  intros Hb. apply N.bits_inj_0. intros i. rewrite N.land_spec.
  destruct (N.lt_ge_cases i k) as [Hlt|Hge].
  - by rewrite N.shiftl_spec_low.
  - rewrite <- (N.mod_small b (2 ^ k)) by done.
    rewrite N.mod_pow2_bits_high by done. apply andb_false_r.
Qed.

Lemma lor_shiftl_add (a k b : N) :
  b < 2 ^ k → N.lor (N.shiftl a k) b = a * 2 ^ k + b.
Proof.
  intros Hb. rewrite <- N.lxor_lor by (by apply land_shiftl_low).
  rewrite <- N.add_nocarry_lxor by (by apply land_shiftl_low).
  by rewrite N.shiftl_mul_pow2.
Qed.

End Bits.

Section Bytes.

Lemma cont_byte (x : N) : N.lor 0x80 (N.land x 0x3F) = 128 + x mod 64.
Proof.
  change 0x3F with (N.ones 6). rewrite N.land_ones.
  change 0x80 with (N.shiftl 2 6). rewrite lor_shiftl_add; [reflexivity|].
  apply N.mod_lt. discriminate.
Qed.

Lemma lead_byte2 (c : N) : c < 0x800 → N.lor 0xC0 (N.shiftr c 6) = 192 + c / 64.
Proof.
  intros Hc. rewrite N.shiftr_div_pow2. change (2 ^ 6) with 64.
  change 0xC0 with (N.shiftl 6 5). rewrite lor_shiftl_add; [reflexivity|].
  change (2 ^ 5) with 32. div_lia.
Qed.

Lemma lead_byte3 (c : N) :
  c < 0x10000 → N.lor 0xE0 (N.shiftr c 12) = 224 + c / 4096.
Proof.
  intros Hc. rewrite N.shiftr_div_pow2. change (2 ^ 12) with 4096.
  change 0xE0 with (N.shiftl 14 4). rewrite lor_shiftl_add; [reflexivity|].
  change (2 ^ 4) with 16. div_lia.
Qed.

Lemma lead_byte4 (c : N) :
  c < 0x110000 → N.lor 0xF0 (N.shiftr c 18) = 240 + c / 262144.
Proof.
  intros Hc. rewrite N.shiftr_div_pow2. change (2 ^ 18) with 262144.
  change 0xF0 with (N.shiftl 30 3). rewrite lor_shiftl_add; [reflexivity|].
  change (2 ^ 3) with 8. div_lia.
Qed.

Lemma land_low (x k : N) : N.land x (N.ones k) = x mod 2 ^ k.
Proof. apply N.land_ones. Qed.

Lemma join_bits2 (x y : N) : y < 64 → N.lor (N.shiftl x 6) y = x * 64 + y.
Proof. intros. by rewrite lor_shiftl_add. Qed.

Lemma join_bits3 (x y z : N) :
  y < 64 → z < 64 →
  N.lor (N.shiftl x 12) (N.lor (N.shiftl y 6) z) = x * 4096 + y * 64 + z.
Proof.
  intros Hy Hz. rewrite (join_bits2 y z) by done.
  rewrite lor_shiftl_add; change (2 ^ 12) with 4096; div_lia.
Qed.

Lemma join_bits4 (w x y z : N) :
  x < 64 → y < 64 → z < 64 →
  N.lor (N.shiftl w 18)
    (N.lor (N.shiftl x 12) (N.lor (N.shiftl y 6) z))
  = w * 262144 + x * 4096 + y * 64 + z.
Proof.
  intros Hx Hy Hz. rewrite (join_bits3 x y z) by done.
  rewrite lor_shiftl_add; change (2 ^ 18) with 262144; div_lia.
Qed.

End Bytes.

Section Roundtrip.

Lemma utf8_decode_step1 (b0 : byte) (r : bytes) :
  Byte.to_N b0 < 0x80 →
  utf8_decode (b0 :: r) = cons (Byte.to_N b0) <$> utf8_decode r.
Proof.
  intros H. cbn [utf8_decode].
  by rewrite (proj2 (N.ltb_lt _ _) H).
Qed.

Lemma in_range_true (lo hi c : N) : lo ≤ c → c ≤ hi → in_range lo hi c = true.
Proof.
  intros. unfold in_range. apply andb_true_iff. by rewrite !N.leb_le.
Qed.

Lemma in_range_false (lo hi c : N) : c < lo ∨ hi < c → in_range lo hi c = false.
Proof.
  intros H. unfold in_range. apply andb_false_iff.
  rewrite !N.leb_gt. tauto.
Qed.

Lemma utf8_decode_step2 (b0 b1 : byte) (r : bytes) :
  0xC2 ≤ Byte.to_N b0 → Byte.to_N b0 ≤ 0xDF →
  0x80 ≤ Byte.to_N b1 → Byte.to_N b1 ≤ 0xBF →
  utf8_decode (b0 :: b1 :: r)
  = cons (N.lor (N.shiftl (N.land (Byte.to_N b0) 0x1F) 6) (cont_bits b1))
      <$> utf8_decode r.
Proof.
  intros H1 H2 H3 H4. cbn [utf8_decode].
  rewrite (proj2 (N.ltb_ge _ _)) by div_lia.
  rewrite in_range_true by done.
  unfold is_cont. by rewrite in_range_true.
Qed.

Lemma utf8_decode_step3 (b0 b1 b2 : byte) (r : bytes) :
  0xE0 ≤ Byte.to_N b0 → Byte.to_N b0 ≤ 0xEF →
  in_range (fst (second_range (Byte.to_N b0)))
    (snd (second_range (Byte.to_N b0))) (Byte.to_N b1) = true →
  0x80 ≤ Byte.to_N b2 → Byte.to_N b2 ≤ 0xBF →
  utf8_decode (b0 :: b1 :: b2 :: r)
  = cons (N.lor (N.shiftl (N.land (Byte.to_N b0) 0x0F) 12)
            (N.lor (N.shiftl (cont_bits b1) 6) (cont_bits b2)))
      <$> utf8_decode r.
Proof.
  intros H1 H2 H3 H4 H5. cbn [utf8_decode].
  rewrite (proj2 (N.ltb_ge _ _)) by div_lia.
  rewrite (in_range_false 0xC2) by div_lia.
  rewrite (in_range_true 0xE0) by done.
  destruct (second_range (Byte.to_N b0)) as [lo hi]. simpl in H3.
  rewrite H3. unfold is_cont. by rewrite in_range_true.
Qed.

Lemma utf8_decode_step4 (b0 b1 b2 b3 : byte) (r : bytes) :
  0xF0 ≤ Byte.to_N b0 → Byte.to_N b0 ≤ 0xF4 →
  in_range (fst (second_range (Byte.to_N b0)))
    (snd (second_range (Byte.to_N b0))) (Byte.to_N b1) = true →
  0x80 ≤ Byte.to_N b2 → Byte.to_N b2 ≤ 0xBF →
  0x80 ≤ Byte.to_N b3 → Byte.to_N b3 ≤ 0xBF →
  utf8_decode (b0 :: b1 :: b2 :: b3 :: r)
  = cons (N.lor (N.shiftl (N.land (Byte.to_N b0) 0x07) 18)
            (N.lor (N.shiftl (cont_bits b1) 12)
               (N.lor (N.shiftl (cont_bits b2) 6) (cont_bits b3))))
      <$> utf8_decode r.
Proof.
  intros H1 H2 H3 H4 H5 H6 H7. cbn [utf8_decode].
  rewrite (proj2 (N.ltb_ge _ _)) by div_lia.
  rewrite (in_range_false 0xC2) by div_lia.
  rewrite (in_range_false 0xE0) by div_lia.
  rewrite (in_range_true 0xF0) by done.
  destruct (second_range (Byte.to_N b0)) as [lo hi]. simpl in H3.
  rewrite H3. unfold is_cont. by rewrite !in_range_true.
Qed.

End Roundtrip.

Section RoundtripCp.

Lemma cont_byte_value (x : N) :
  Byte.to_N (byte_of_N (N.lor 0x80 (N.land x 0x3F))) = 128 + x mod 64.
Proof. rewrite cont_byte. apply byte_to_of_N. div_lia. Qed.

Lemma cont_bits_value (b : byte) (m : N) :
  m < 64 → Byte.to_N b = 128 + m → cont_bits b = m.
Proof.
  intros Hm Hb. unfold cont_bits. rewrite Hb.
  change 0x3F with (N.ones 6). rewrite N.land_ones. change (2 ^ 6) with 64.
  div_lia.
Qed.

Lemma lead_bits_value (v base k : N) (q : N) :
  v = base * 2 ^ k + q → q < 2 ^ k → N.land v (N.ones k) = q.
Proof.
  intros -> Hq. rewrite N.land_ones.
  rewrite N.add_comm, N.Div0.mod_add. by apply N.mod_small.
Qed.

Lemma second_range_cases (c0 : N) :
  second_range c0
  = if decide (c0 = 0xE0) then (0xA0, 0xBF)
    else if decide (c0 = 0xED) then (0x80, 0x9F)
    else if decide (c0 = 0xF0) then (0x90, 0xBF)
    else if decide (c0 = 0xF4) then (0x80, 0x8F)
    else (0x80, 0xBF).
Proof.
  unfold second_range.
  repeat (case_decide; [subst; reflexivity|]).
  by rewrite !(proj2 (N.eqb_neq _ _)).
Qed.

Lemma utf8_decode_encode_cp (c : N) (bs rest : bytes) :
  utf8_encode_cp c = Some bs →
  utf8_decode (bs ++ rest) = cons c <$> utf8_decode rest.
Proof.
  unfold utf8_encode_cp.
  destruct (c <? 0x80) eqn:H1.
  { apply N.ltb_lt in H1. intros [= <-]. simpl app.
    rewrite utf8_decode_step1; rewrite byte_to_of_N by div_lia; [done|div_lia]. }
  apply N.ltb_ge in H1.
  destruct (c <? 0x800) eqn:H2.
  { apply N.ltb_lt in H2. intros [= <-]. simpl app.
    pose proof (cont_byte_value c) as Hb1.
    assert (Hb0 : Byte.to_N (byte_of_N (N.lor 0xC0 (N.shiftr c 6)))
                  = 192 + c / 64).
    { rewrite lead_byte2 by done. apply byte_to_of_N. div_lia. }
    rewrite utf8_decode_step2 by (rewrite ?Hb0, ?Hb1; div_lia).
    rewrite (cont_bits_value _ (c mod 64)) by (done || div_lia).
    rewrite Hb0. change 0x1F with (N.ones 5).
    rewrite (lead_bits_value _ 6 5 (c / 64)) by (change (2 ^ 5) with 32; div_lia).
    rewrite join_bits2 by div_lia. f_equal. f_equal. div_lia. }
  apply N.ltb_ge in H2.
  destruct (c <? 0x10000) eqn:H3.
  { apply N.ltb_lt in H3.
    destruct (is_surrogate c) eqn:Hs; [done|]. intros [= <-]. simpl app.
    assert (Hns : c < 0xD800 ∨ 0xDFFF < c).
    { unfold is_surrogate in Hs. apply andb_false_iff in Hs.
      rewrite !N.leb_gt in Hs. tauto. }
    pose proof (cont_byte_value c) as Hb2.
    assert (Hb1 : Byte.to_N (byte_of_N
                      (N.lor 0x80 (N.land (N.shiftr c 6) 0x3F)))
                  = 128 + (c / 64) mod 64)
      by (by rewrite cont_byte_value, N.shiftr_div_pow2).
    assert (Hb0 : Byte.to_N (byte_of_N (N.lor 0xE0 (N.shiftr c 12)))
                  = 224 + c / 4096).
    { rewrite lead_byte3 by done. apply byte_to_of_N. div_lia. }
    rewrite utf8_decode_step3.
    2,3: rewrite Hb0; div_lia.
    3,4: rewrite Hb2; div_lia.
    2:{ rewrite Hb0, Hb1, second_range_cases.
        repeat case_decide; simpl; apply in_range_true; div_lia. }
    rewrite (cont_bits_value _ ((c / 64) mod 64)) by (done || div_lia).
    rewrite (cont_bits_value _ (c mod 64)) by (done || div_lia).
    rewrite Hb0. change 0x0F with (N.ones 4).
    rewrite (lead_bits_value _ 14 4 (c / 4096))
      by (change (2 ^ 4) with 16; div_lia).
    rewrite join_bits3 by div_lia. f_equal. f_equal. div_lia. }
  apply N.ltb_ge in H3.
  destruct (c <? 0x110000) eqn:H4; [|done].
  apply N.ltb_lt in H4. intros [= <-]. simpl app.
  pose proof (cont_byte_value c) as Hb3.
  assert (Hb2 : Byte.to_N (byte_of_N
                    (N.lor 0x80 (N.land (N.shiftr c 6) 0x3F)))
                = 128 + (c / 64) mod 64)
    by (by rewrite cont_byte_value, N.shiftr_div_pow2).
  assert (Hb1 : Byte.to_N (byte_of_N
                    (N.lor 0x80 (N.land (N.shiftr c 12) 0x3F)))
                = 128 + (c / 4096) mod 64)
    by (by rewrite cont_byte_value, N.shiftr_div_pow2).
  assert (Hb0 : Byte.to_N (byte_of_N (N.lor 0xF0 (N.shiftr c 18)))
                = 240 + c / 262144).
  { rewrite lead_byte4 by done. apply byte_to_of_N. div_lia. }
  rewrite utf8_decode_step4.
  2,3: rewrite Hb0; div_lia.
  3,4: rewrite Hb2; div_lia.
  3,4: rewrite Hb3; div_lia.
  2:{ rewrite Hb0, Hb1, second_range_cases.
      repeat case_decide; simpl; apply in_range_true; div_lia. }
  rewrite (cont_bits_value _ ((c / 4096) mod 64)) by (done || div_lia).
  rewrite (cont_bits_value _ ((c / 64) mod 64)) by (done || div_lia).
  rewrite (cont_bits_value _ (c mod 64)) by (done || div_lia).
  rewrite Hb0. change 0x07 with (N.ones 3).
  rewrite (lead_bits_value _ 30 3 (c / 262144))
    by (change (2 ^ 3) with 8; div_lia).
  rewrite join_bits4 by div_lia. f_equal. f_equal. div_lia.
Qed.

Lemma utf8_decode_encode (t : text) (b : bytes) :
  utf8_encode t = Some b → utf8_decode b = Some t.
Proof.
  revert b. induction t as [|c t IH]; intros b; simpl.
  - by intros [= <-].
  - destruct (utf8_encode_cp c) as [bs|] eqn:Hc; [|done].
    destruct (utf8_encode t) as [br|]; [|done]. intros [= <-].
    rewrite (utf8_decode_encode_cp c bs br Hc). by rewrite (IH br).
Qed.

End RoundtripCp.

Section Canonical.

Lemma byte_of_to_N (b : byte) : byte_of_N (Byte.to_N b) = b.
Proof.
  unfold byte_of_N. pose proof (Byte.to_N_bounded b).
  rewrite N.mod_small by div_lia. by rewrite Byte.of_to_N.
Qed.

Lemma byte_of_N_eq (b : byte) (v : N) : v = Byte.to_N b → byte_of_N v = b.
Proof. intros ->. apply byte_of_to_N. Qed.

Lemma in_range_inv (lo hi c : N) : in_range lo hi c = true → lo ≤ c ∧ c ≤ hi.
Proof.
  unfold in_range. rewrite andb_true_iff, !N.leb_le. tauto.
Qed.

Lemma cont_bits_mod (b : byte) : cont_bits b = Byte.to_N b mod 64.
Proof.
  unfold cont_bits. change 0x3F with (N.ones 6). by rewrite N.land_ones.
Qed.

Lemma second_range_inv (c0 v1 : N) :
  in_range (fst (second_range c0)) (snd (second_range c0)) v1 = true →
  0x80 ≤ v1 ∧ v1 ≤ 0xBF
  ∧ (c0 = 0xE0 → 0xA0 ≤ v1) ∧ (c0 = 0xED → v1 ≤ 0x9F)
  ∧ (c0 = 0xF0 → 0x90 ≤ v1) ∧ (c0 = 0xF4 → v1 ≤ 0x8F).
Proof.
  rewrite second_range_cases.
  repeat case_decide; simpl; intros [? ?]%in_range_inv; subst; div_lia.
Qed.

(** One decoding step, read backwards: the code point it yields encodes to
    the bytes it consumed. *)
Lemma utf8_decode_cons_inv (b0 : byte) (r0 : bytes) (t : text) :
  utf8_decode (b0 :: r0) = Some t →
  ∃ bs rest c t',
    b0 :: r0 = bs ++ rest ∧ t = c :: t'
    ∧ utf8_decode rest = Some t'
    ∧ utf8_encode_cp c = Some bs
    ∧ (length rest < length (b0 :: r0))%nat.
Proof.
  cbn [utf8_decode]. pose proof (Byte.to_N_bounded b0) as Hbound.
  destruct (Byte.to_N b0 <? 0x80) eqn:H1.
  { apply N.ltb_lt in H1.
    destruct (utf8_decode r0) as [t'|] eqn:Hr; [|done]. intros [= <-].
    exists [b0], r0, (Byte.to_N b0), t'. split_and!; try done; [|simpl; div_lia].
    unfold utf8_encode_cp. rewrite (proj2 (N.ltb_lt _ _) H1).
    by rewrite byte_of_to_N. }
  apply N.ltb_ge in H1.
  destruct (in_range 0xC2 0xDF (Byte.to_N b0)) eqn:H2.
  { apply in_range_inv in H2 as [H2 H2'].
    destruct r0 as [|b1 r1]; [done|].
    destruct (is_cont b1) eqn:Hc1; [|done].
    apply in_range_inv in Hc1 as [Hc1 Hc1'].
    destruct (utf8_decode r1) as [t'|] eqn:Hr; [|done]. intros [= <-].
    eexists [b0; b1], r1, _, t'. split_and!; try done; [|simpl; div_lia].
    rewrite cont_bits_mod. change 0x1F with (N.ones 5). rewrite N.land_ones.
    change (2 ^ 5) with 32. rewrite join_bits2 by div_lia.
    set (c := Byte.to_N b0 mod 32 * 64 + Byte.to_N b1 mod 64).
    assert (Hc : 0x80 ≤ c ∧ c < 0x800) by (unfold c; div_lia).
    unfold utf8_encode_cp.
    rewrite (proj2 (N.ltb_ge _ _)) by div_lia.
    rewrite (proj2 (N.ltb_lt _ 0x800)) by div_lia.
    rewrite lead_byte2, cont_byte by div_lia.
    f_equal. f_equal; [|f_equal]; apply byte_of_N_eq; unfold c; div_lia. }
  clear H2.
  destruct (in_range 0xE0 0xEF (Byte.to_N b0)) eqn:H3.
  { apply in_range_inv in H3 as [H3 H3'].
    destruct r0 as [|b1 [|b2 r2]]; [done|done|].
    destruct (second_range (Byte.to_N b0)) as [lo hi] eqn:Hsr.
    destruct (in_range lo hi (Byte.to_N b1) && is_cont b2) eqn:Hc; [|done].
    apply andb_true_iff in Hc as [Hc1 Hc2].
    apply in_range_inv in Hc2 as [Hc2 Hc2'].
    assert (Hsec : in_range (fst (second_range (Byte.to_N b0)))
                     (snd (second_range (Byte.to_N b0))) (Byte.to_N b1)
                   = true) by (by rewrite Hsr).
    apply second_range_inv in Hsec as (Hv1 & Hv1' & HE0 & HED & _ & _).
    destruct (utf8_decode r2) as [t'|] eqn:Hr; [|done]. intros [= <-].
    eexists [b0; b1; b2], r2, _, t'. split_and!; try done; [|simpl; div_lia].
    rewrite !cont_bits_mod. change 0x0F with (N.ones 4). rewrite N.land_ones.
    change (2 ^ 4) with 16. rewrite join_bits3 by div_lia.
    set (c := Byte.to_N b0 mod 16 * 4096 + Byte.to_N b1 mod 64 * 64
              + Byte.to_N b2 mod 64).
    assert (Hc : 0x800 ≤ c ∧ c < 0x10000 ∧ (c < 0xD800 ∨ 0xDFFF < c))
      by (unfold c; div_lia).
    unfold utf8_encode_cp.
    rewrite (proj2 (N.ltb_ge _ 0x80)) by div_lia.
    rewrite (proj2 (N.ltb_ge _ 0x800)) by div_lia.
    rewrite (proj2 (N.ltb_lt _ 0x10000)) by div_lia.
    assert (Hs : is_surrogate c = false).
    { unfold is_surrogate. apply andb_false_iff. rewrite !N.leb_gt. div_lia. }
    rewrite Hs, lead_byte3, !cont_byte by div_lia.
    rewrite N.shiftr_div_pow2. change (2 ^ 6) with 64.
    f_equal. f_equal; [|f_equal; [|f_equal]];
      apply byte_of_N_eq; unfold c; div_lia. }
  clear H3.
  destruct (in_range 0xF0 0xF4 (Byte.to_N b0)) eqn:H4; [|done].
  apply in_range_inv in H4 as [H4 H4'].
  destruct r0 as [|b1 [|b2 [|b3 r3]]]; [done|done|done|].
  destruct (second_range (Byte.to_N b0)) as [lo hi] eqn:Hsr.
  destruct (in_range lo hi (Byte.to_N b1) && is_cont b2 && is_cont b3)
    eqn:Hc; [|done].
  apply andb_true_iff in Hc as [Hc Hc3].
  apply andb_true_iff in Hc as [Hc1 Hc2].
  apply in_range_inv in Hc2 as [Hc2 Hc2'].
  apply in_range_inv in Hc3 as [Hc3 Hc3'].
  assert (Hsec : in_range (fst (second_range (Byte.to_N b0)))
                   (snd (second_range (Byte.to_N b0))) (Byte.to_N b1)
                 = true) by (by rewrite Hsr).
  apply second_range_inv in Hsec as (Hv1 & Hv1' & _ & _ & HF0 & HF4).
  destruct (utf8_decode r3) as [t'|] eqn:Hr; [|done]. intros [= <-].
  eexists [b0; b1; b2; b3], r3, _, t'. split_and!; try done; [|simpl; div_lia].
  rewrite !cont_bits_mod. change 0x07 with (N.ones 3). rewrite N.land_ones.
  change (2 ^ 3) with 8. rewrite join_bits4 by div_lia.
  set (c := Byte.to_N b0 mod 8 * 262144 + Byte.to_N b1 mod 64 * 4096
            + Byte.to_N b2 mod 64 * 64 + Byte.to_N b3 mod 64).
  assert (Hc : 0x10000 ≤ c ∧ c < 0x110000) by (unfold c; div_lia).
  unfold utf8_encode_cp.
  rewrite (proj2 (N.ltb_ge _ 0x80)) by div_lia.
  rewrite (proj2 (N.ltb_ge _ 0x800)) by div_lia.
  rewrite (proj2 (N.ltb_ge _ 0x10000)) by div_lia.
  rewrite (proj2 (N.ltb_lt _ 0x110000)) by div_lia.
  rewrite lead_byte4, !cont_byte by div_lia.
  rewrite !N.shiftr_div_pow2. change (2 ^ 6) with 64.
  change (2 ^ 12) with 4096.
  f_equal. f_equal; [|f_equal; [|f_equal; [|f_equal]]];
    apply byte_of_N_eq; unfold c; div_lia.
Qed.

(** Strict UTF-8 is canonical: a decodable byte sequence is the encoding of
    its text. *)
Lemma utf8_encode_decode_len (k : nat) : ∀ (b : bytes) (t : text),
  (length b ≤ k)%nat → utf8_decode b = Some t → utf8_encode t = Some b.
Proof.
  induction k as [|k IH]; intros b t Hlen Hdec.
  - destruct b; [|simpl in Hlen; div_lia]. simpl in Hdec.
    by injection Hdec as <-.
  - destruct b as [|b0 r0]; [simpl in Hdec; by injection Hdec as <-|].
    apply utf8_decode_cons_inv in Hdec
      as (bs & rest & c & t' & Hsplit & -> & Hrest & Hcp & Hshort).
    simpl in Hlen, Hshort. simpl. rewrite Hcp.
    rewrite (IH rest t') by (done || div_lia). by rewrite Hsplit.
Qed.

Lemma utf8_encode_decode (b : bytes) (t : text) :
  utf8_decode b = Some t → utf8_encode t = Some b.
Proof. by apply (utf8_encode_decode_len (length b)). Qed.

End Canonical.

Section Codec.

Implicit Types (t : text) (b : bytes).

Lemma utf8_encode_cp_is_scalar (c : N) :
  is_Some (utf8_encode_cp c) → is_scalar c = true.
Proof.
  unfold utf8_encode_cp, is_scalar. intros [bs Hbs].
  destruct (c <? 0x80) eqn:H1.
  { apply N.ltb_lt in H1. apply andb_true_iff. split.
    - apply N.ltb_lt. lia.
    - unfold is_surrogate. rewrite (proj2 (N.leb_gt _ _)) by lia. done. }
  destruct (c <? 0x800) eqn:H2.
  { apply N.ltb_lt in H2. apply andb_true_iff. split.
    - apply N.ltb_lt. lia.
    - unfold is_surrogate. rewrite (proj2 (N.leb_gt _ _)) by lia. done. }
  destruct (c <? 0x10000) eqn:H3.
  { apply N.ltb_lt in H3. destruct (is_surrogate c); [done|].
    apply andb_true_iff. split; [apply N.ltb_lt; lia|done]. }
  apply N.ltb_ge in H3.
  destruct (c <? 0x110000) eqn:H4; [|done]. simpl.
  unfold is_surrogate. rewrite andb_comm.
  by rewrite (proj2 (N.leb_gt _ _)) by lia.
Qed.

Lemma utf8_encode_is_scalar t b :
  utf8_encode t = Some b → Forall (λ c, is_scalar c = true) t.
Proof.
  revert b. induction t as [|c t IH]; intros b; simpl; [constructor|].
  destruct (utf8_encode_cp c) as [bs|] eqn:Hc; [|done].
  destruct (utf8_encode t) as [br|] eqn:Ht; [|done]. intros _.
  constructor; [apply utf8_encode_cp_is_scalar; by eexists|by eapply IH].
Qed.

Lemma latin1_is_scalar b : Forall (λ c, is_scalar c = true) (Byte.to_N <$> b).
Proof.
  eapply Forall_impl; [apply latin1_code_points|]. intros c Hc. simpl in Hc.
  unfold is_scalar, is_surrogate. apply andb_true_iff. split.
  - apply N.ltb_lt. lia.
  - by rewrite (proj2 (N.leb_gt _ _)) by lia.
Qed.

Lemma utf8_encode_app t1 t2 b :
  utf8_encode (t1 ++ t2) = Some b →
  ∃ b1 b2, utf8_encode t1 = Some b1 ∧ utf8_encode t2 = Some b2
           ∧ b = b1 ++ b2.
Proof.
  revert b. induction t1 as [|c t1 IH]; intros b; simpl.
  - intros H. by exists [], b.
  - destruct (utf8_encode_cp c) as [bs|]; [|done].
    destruct (utf8_encode (t1 ++ t2)) as [br|] eqn:Hr; [|done].
    intros [= <-]. destruct (IH br eq_refl) as (b1 & b2 & -> & H2 & ->).
    exists (bs ++ b1), b2. by rewrite app_assoc.
Qed.

Lemma utf8_decode_ascii b :
  Forall (λ x, Byte.to_N x < 0x80) b → utf8_decode b = Some (Byte.to_N <$> b).
Proof.
  induction 1 as [|x b Hx _ IH]; [done|].
  rewrite utf8_decode_step1 by done. by rewrite IH.
Qed.

End Codec.

(** X9.  What [send] writes, [decode] reads back: whenever [send] returns,
    it has made one write, and decoding the payload gives the normalised
    line, that is the fragments joined by single spaces with the terminator
    at the end.  This holds for any number of fragments. *)
Theorem decode_reads_back_send
    (tr tr' : Transport) (args : list text)
    (Hsend : Connection.send tr args = (tr', Ok tt)) :
  let line := Connection.normalize (join [32] args) Connection.CRLF in
  ∃ data,
    written tr' = written tr ++ [data]
    ∧ closed tr' = closed tr
    ∧ str_encode line = Ok data
    ∧ bytes_decode Utf8 data = Ok line
    ∧ Connection.decode data = Ok line.
Proof.
  intros line. unfold Connection.send in Hsend. fold line in Hsend.
  unfold str_encode in *.
  destruct (utf8_encode line) as [data|] eqn:Henc; [|done].
  injection Hsend as <-. exists data.
  assert (Hdec : bytes_decode Utf8 data = Ok line).
  { unfold bytes_decode. by rewrite (utf8_decode_encode line data Henc). }
  split_and!; try done.
  unfold Connection.decode. by rewrite Hdec.
Qed.

Lemma decode_reads_back_send_witness :
  Connection.decode [x50; x49; x4e; x47; x20; x3a; xc3; xa9; x0d; x0a]
  = Ok (text_of_string "PING" ++ [32; 0x3A; 0xE9; 13; 10]).
Proof.
  destruct (decode_reads_back_send {| written := []; closed := false |}
              {| written := [[x50; x49; x4e; x47; x20; x3a; xc3; xa9;
                              x0d; x0a]];
                 closed := false |}
              [text_of_string "PING"; [0x3A; 0xE9]] eq_refl)
    as (data & Hw & _ & _ & _ & Hdec).
  simpl in Hw. injection Hw as <-. exact Hdec.
Defined.

(** X10.  Whatever bytes arrive, the text [decode] gives can be sent again:
    its code points are all Unicode scalar values, so encoding it does not
    raise.  A line that is valid UTF-8 encodes back to the very same bytes;
    a line that is not comes back as the UTF-8 encoding of its Latin-1
    reading, which differs from the bytes received. *)
Theorem decode_output_encodes (b : bytes) :
  ∃ t b',
    Connection.decode b = Ok t
    ∧ Forall (λ c, is_scalar c = true) t
    ∧ str_encode t = Ok b'
    ∧ match bytes_decode Utf8 b with
      | Ok _ => b' = b
      | Raise _ =>
        b' ≠ b ∧ t = Byte.to_N <$> b ∧ bytes_decode Utf8 b' = Ok t
      end.
Proof.
  unfold Connection.decode, bytes_decode, str_encode.
  destruct (utf8_decode b) as [t|] eqn:Hdec.
  - pose proof (utf8_encode_decode b t Hdec) as Henc.
    exists t, b. rewrite Henc. split_and!; try done.
    by eapply utf8_encode_is_scalar.
  - pose proof (latin1_is_scalar b) as Hsc.
    destruct (utf8_encode_scalar _ Hsc) as [b' Henc].
    exists (Byte.to_N <$> b), b'. rewrite Henc.
    pose proof (utf8_decode_encode _ _ Henc) as Hback.
    split_and!; try done; [|by rewrite Hback].
    intros ->. congruence.
Qed.

(** X11.  On the wire every line [send] emits ends with the two bytes CR
    LF: whenever [send] returns, the payload it wrote ends with [0D 0A]. *)
Theorem send_payload_ends_with_crlf
    (tr tr' : Transport) (args : list text)
    (Hsend : Connection.send tr args = (tr', Ok tt)) :
  ∃ data,
    last (written tr') = Some data
    ∧ [x0d; x0a] `suffix_of` data
    ∧ (2 ≤ length data)%nat.
Proof.
  unfold Connection.send, str_encode in Hsend.
  destruct (utf8_encode _) as [data|] eqn:Henc; [|done].
  injection Hsend as <-. exists data.
  destruct (normalize_suffix (join [32] args) Connection.CRLF) as [k Hk].
  rewrite Hk in Henc.
  apply utf8_encode_app in Henc as (b1 & b2 & _ & H2 & ->).
  assert (b2 = [x0d; x0a]) as -> by (vm_compute in H2; congruence).
  split_and!.
  - simpl. apply last_snoc.
  - by exists b1.
  - rewrite length_app. simpl. lia.
Qed.

Lemma send_payload_ends_with_crlf_witness :
  ∃ data,
    last (written (fst (Connection.send {| written := []; closed := false |}
                          []))) = Some data
    ∧ [x0d; x0a] `suffix_of` data.
Proof.
  destruct (send_payload_ends_with_crlf {| written := []; closed := false |}
              {| written := [[x0d; x0a]]; closed := false |} [] eq_refl)
    as (data & Hl & Hs & _).
  exists data. split; [exact Hl|exact Hs].
Defined.

(** X12.  A line made of ASCII bytes only decodes to the same values, one
    code point per byte: on such input UTF-8 succeeds and agrees with the
    Latin-1 fallback. *)
Theorem decode_ascii_bytes
    (b : bytes) (Hascii : Forall (λ x, Byte.to_N x < 0x80) b) :
  Connection.decode b = Ok (Byte.to_N <$> b)
  ∧ bytes_decode Utf8 b = bytes_decode Latin1 b
  ∧ str_encode (Byte.to_N <$> b) = Ok b.
Proof.
  pose proof (utf8_decode_ascii b Hascii) as Hdec.
  unfold Connection.decode, bytes_decode, str_encode. rewrite Hdec.
  by rewrite (utf8_encode_decode _ _ Hdec).
Qed.

Lemma decode_ascii_bytes_witness :
  Connection.decode [x4a; x4f; x49; x4e] = Ok (text_of_string "JOIN").
Proof.
  refine (proj1 (decode_ascii_bytes [x4a; x4f; x49; x4e] _)).
  repeat constructor.
Defined.

(** X13.  [normalize] only ever appends: the line it is given is a prefix
    of the result, which is either the line itself or the line followed by
    one terminator, and terminators inside the line are left alone.  With a
    non-empty terminator, the line comes back unchanged exactly when it
    already ends with it. *)
Theorem normalize_only_appends (t e : text) :
  t `prefix_of` Connection.normalize t e
  ∧ (Connection.normalize t e = t ∨ Connection.normalize t e = t ++ e)
  ∧ (length (Connection.normalize t e) ≤ length t + length e)%nat
  ∧ (e `suffix_of` t → Connection.normalize t e = t)
  ∧ (e ≠ [] → Connection.normalize t e = t → e `suffix_of` t).
Proof.
  unfold Connection.normalize.
  destruct (endswith t e) eqn:Hend; simpl.
  - apply endswith_true in Hend. split_and!; try done; [by left|lia].
  - split_and!.
    + by exists e.
    + by right.
    + by rewrite length_app.
    + intros Hsuf. apply endswith_true in Hsuf. congruence.
    + intros Hne Heq. exfalso. apply Hne.
      apply (f_equal length) in Heq. rewrite length_app in Heq.
      apply nil_length_inv. lia.
Qed.

Lemma address_unpacks_iff_one_colon_witness :
  unpack2 (split_on Handlers.colon (text_of_string "irc.example.org:6667"))
  = Ok (text_of_string "irc.example.org", text_of_string "6667").
Proof.
  apply (proj2 (address_unpacks_iff_one_colon
                  (text_of_string "irc.example.org:6667")
                  (text_of_string "irc.example.org")
                  (text_of_string "6667"))).
  split_and!.
  - reflexivity.
  - vm_compute. intros H. repeat (inversion H as [|? ? ? H']; clear H;
      rename H' into H).
  - vm_compute. intros H. repeat (inversion H as [|? ? ? H']; clear H;
      rename H' into H).
Defined.

(** ** Configuration pages *)

Section Pages.

Implicit Types (s : State) (req : Request).

Lemma addslash_slashed (m : http_method) req (body : M response) :
  slashed req → Tornado.addslash m req body = body.
Proof. unfold slashed, Tornado.addslash. by intros ->. Qed.

Lemma addslash_post_unslashed req (body : M response) s :
  endswith (path req) [Tornado.slash] = false →
  Tornado.addslash POST req body s = (s, Raise (HTTPError 404)).
Proof. unfold Tornado.addslash. by intros ->. Qed.






Lemma AddHandler_post_form req s name addr nick ident pw host port :
  slashed req →
  form_fields req name addr nick ident pw host port →
  Handlers.AddHandler_post req s
  = (if bool_decide (PStr name ∉ dom (networks s))
     then fst (page_add_network name nick ident pw host port s)
     else s,
     Ok Handlers.home).
Proof.
  intros Hslash (Hn & Ha & Hk & Hi & Hp & Hs).
  unfold Handlers.AddHandler_post. rewrite addslash_slashed by done.
  unfold Handlers.get_argument, lift_result, mbind.
  rewrite Hn, Ha, Hk, Hi, Hp, Hs. unfold mret. simpl.
  case_bool_decide; [|done].
  unfold page_add_network.
  destruct (Bouncer.add_network _ _ _ _ _ _ _ _ s) as [s1 r1] eqn:Hcall.
  pose proof (add_network_returns (PStr name) (PStr host) (PStr port)
                (PStr nick) (PStr ident) (PStr ident)
                (Some (PStr pw)) None s) as Hr.
  rewrite Hcall in Hr. simpl in Hr. by subst r1.
Qed.

Lemma EditHandler_post_form old req s name addr nick ident pw host port :
  slashed req →
  form_fields req name addr nick ident pw host port →
  Handlers.EditHandler_post req old s
  = (fst (page_add_network name nick ident pw host port
            (fst (Bouncer.remove_network (PStr old) s))),
     Ok Handlers.home).
Proof.
  intros Hslash (Hn & Ha & Hk & Hi & Hp & Hs).
  unfold Handlers.EditHandler_post. rewrite addslash_slashed by done.
  unfold mbind.
  destruct (Bouncer.remove_network (PStr old) s) as [s0 r0] eqn:Hrem.
  pose proof (remove_network_returns (PStr old) s) as Hr0.
  rewrite Hrem in Hr0. simpl in Hr0. subst r0. simpl.
  unfold Handlers.get_argument, lift_result.
  rewrite Hn, Ha, Hk, Hi, Hp, Hs. unfold mret. simpl.
  unfold page_add_network.
  destruct (Bouncer.add_network _ _ _ _ _ _ _ _ s0) as [s1 r1] eqn:Hcall.
  pose proof (add_network_returns (PStr name) (PStr host) (PStr port)
                (PStr nick) (PStr ident) (PStr ident)
                (Some (PStr pw)) None s0) as Hr.
  rewrite Hcall in Hr. simpl in Hr. by subst r1.
Qed.

(** Whatever the request holds, the add page dials only names that are
    not in the registry. *)
Lemma AddHandler_post_dials req s :
  let s' := fst (Handlers.AddHandler_post req s) in
  networks s' = networks s
  ∧ ∃ new,
      trace s' = trace s ++ new
      ∧ ∀ h p kw, Dial h p kw ∈ new →
          ∃ name, kw !! "network" = Some name
                  ∧ name ∉ dom (networks s).
Proof.
  intros s'.
  assert (Hquiet : s' = s → networks s' = networks s
    ∧ ∃ new, trace s' = trace s ++ new
        ∧ ∀ h p kw, Dial h p kw ∈ new →
            ∃ name, kw !! "network" = Some name
                    ∧ name ∉ dom (networks s)).
  { intros ->. split; [done|]. exists []. rewrite app_nil_r.
    split; [done|]. intros h p kw Hin. by apply elem_of_nil in Hin. }
  unfold s', Handlers.AddHandler_post in *.
  destruct (endswith (path req) [Tornado.slash]) eqn:Hslash.
  2:{ rewrite addslash_post_unslashed in * by done. by apply Hquiet. }
  rewrite addslash_slashed in * by done.
  unfold Handlers.get_argument, lift_result, mbind in *.
  destruct (Tornado.get_argument req "networkname") as [name|];
    [|by apply Hquiet].
  destruct (Tornado.get_argument req "networkaddress") as [addr|];
    [|by apply Hquiet].
  destruct (Tornado.get_argument req "nickname") as [nick|];
    [|by apply Hquiet].
  destruct (Tornado.get_argument req "ident") as [ident|];
    [|by apply Hquiet].
  destruct (Tornado.get_argument req "password") as [pw|];
    [|by apply Hquiet].
  destruct (unpack2 (split_on Handlers.colon addr)) as [[host port]|err];
    [|by apply Hquiet].
  unfold mret in *. simpl in *. case_bool_decide as Hfree; [|by apply Hquiet].
  clear Hquiet.
  destruct (Bouncer.add_network _ _ _ _ _ _ _ _ s) as [s1 r1] eqn:Hcall.
  assert (Hs1 : s1 = fst (Bouncer.add_network (PStr name) (PStr host)
                   (PStr port) (PStr nick) (PStr ident) (PStr ident)
                   (Some (PStr pw)) None s)) by (by rewrite Hcall).
  assert (Hfst : fst (match r1 with
                      | Ok _ => (s1, Ok Handlers.home)
                      | Raise e => (s1, Raise e)
                      end) = s1) by (by destruct r1).
  rewrite Hfst, Hs1. split; [apply add_network_networks|].
  eexists. split; [apply add_network_trace|].
  intros h p kw Hin. exists (PStr name). split; [|done].
  destruct (datastore s); simpl in Hin.
  - apply elem_of_cons in Hin as [Hbad|Hin]; [discriminate|].
    apply list_elem_of_singleton in Hin. injection Hin as -> -> ->.
    apply credentials_dict_network.
  - apply list_elem_of_singleton in Hin. injection Hin as -> -> ->.
    apply credentials_dict_network.
Qed.

End Pages.

(** C2, as the specification words it, fails on the edit page: editing the
    network registered as ["freenode"] and keeping its name calls
    [remove_network], which leaves the entry in the registry, and then
    [add_network] with a name that is a key of the registry at that time.
    No check stands between the two calls. *)
Lemma edit_page_adds_registered_name :
  let s := sample_state None in
  let req := form_on "/edit/freenode/" "irc.example.org:6667" in
  let host := text_of_string "irc.example.org" in
  let port := text_of_string "6667" in
  let alice := text_of_string "alice" in
  let at_call := fst (Bouncer.remove_network freenode s) in
  let r := Handlers.EditHandler_post req (text_of_string "freenode") s in
  freenode ∈ dom (networks s)
  ∧ freenode ∈ dom (networks at_call)
  ∧ r = (fst (Bouncer.add_network freenode (PStr host) (PStr port)
                (PStr alice) (PStr alice) (PStr alice)
                (Some (PStr (text_of_string "secret"))) None at_call),
         Ok Handlers.home)
  ∧ trace (fst r)
    = [TransportClose 1%positive;
       Dial (PStr host) (PStr port)
         (Bouncer.credentials_dict freenode (PStr host) (PStr port)
            (PStr alice) (PStr alice) (PStr alice)
            (PStr (text_of_string "secret")))].
Proof.
  intros s req host port alice at_call r. split_and!.
  - apply elem_of_dom. exists 1%positive. vm_compute. reflexivity.
  - apply elem_of_dom. exists 1%positive. vm_compute. reflexivity.
  - vm_compute. reflexivity.
  - vm_compute. reflexivity.
Qed.

(** C2, amended.  The add-network page checks that the supplied name is
    absent from the registry before it calls [add_network], so it never
    calls it with a name that is already a key of the registry: every dial
    it causes is for an absent name.  The edit-network page has no such
    check: when the submitted name is the name of the network being edited,
    it calls [remove_network] on that name, which leaves the registry as it
    is, and then calls [add_network] with it.  Both pages act only on a path
    with a trailing slash. *)
Theorem pages_call_add_network
    (s : State) (req : Request) (name addr nick ident pw host port : text)
    (Hslash : slashed req)
    (Hform : form_fields req name addr nick ident pw host port) :
  let add := Handlers.AddHandler_post req s in
  let edit := Handlers.EditHandler_post req name s in
  let at_call := fst (Bouncer.remove_network (PStr name) s) in
  add = (if bool_decide (PStr name ∉ dom (networks s))
         then fst (page_add_network name nick ident pw host port s)
         else s,
         Ok Handlers.home)
  ∧ networks (fst add) = networks s
  ∧ (∃ new,
       trace (fst add) = trace s ++ new
       ∧ ∀ h p kw, Dial h p kw ∈ new →
           ∃ n, kw !! "network" = Some n ∧ n ∉ dom (networks s))
  ∧ edit = (fst (page_add_network name nick ident pw host port at_call),
            Ok Handlers.home)
  ∧ networks at_call = networks s
  ∧ ∃ c,
      c !! "network" = Some (PStr name)
      ∧ last (trace (fst edit)) = Some (Dial (PStr host) (PStr port) c).
Proof.
  intros add edit at_call.
  destruct (AddHandler_post_dials req s) as [Hnet Hnew].
  assert (Hedit : edit
    = (fst (page_add_network name nick ident pw host port at_call),
       Ok Handlers.home))
    by (by apply EditHandler_post_form with (addr := addr)).
  split_and!.
  - by apply AddHandler_post_form with (addr := addr).
  - exact Hnet.
  - exact Hnew.
  - exact Hedit.
  - apply remove_network_networks.
  - eexists. split; [apply credentials_dict_network|].
    rewrite Hedit. simpl. unfold page_add_network.
    rewrite add_network_trace, last_app.
    by destruct (datastore at_call).
Qed.

Lemma pages_call_add_network_witness :
  Handlers.AddHandler_post sample_form (sample_state None)
  = (sample_state None, Ok Handlers.home)
  ∧ networks (fst (Bouncer.remove_network freenode (sample_state None)))
    = networks (sample_state None).
Proof.
  assert (Hslash : slashed sample_form) by (vm_compute; reflexivity).
  assert (Hform : form_fields sample_form
            (text_of_string "freenode")
            (text_of_string "irc.example.org:6667")
            (text_of_string "alice") (text_of_string "alice")
            (text_of_string "secret")
            (text_of_string "irc.example.org") (text_of_string "6667")).
  { unfold form_fields. split_and!; vm_compute; reflexivity. }
  destruct (pages_call_add_network (sample_state None) sample_form
              _ _ _ _ _ _ _ Hslash Hform)
    as (Hadd & _ & _ & _ & Hreg & _).
  split; [|exact Hreg].
  rewrite Hadd. rewrite bool_decide_eq_false_2; [done|].
  intros Hfree. apply Hfree, elem_of_dom. exists 1%positive.
  vm_compute. reflexivity.
Defined.

(** ** Further properties of the configuration pages *)






(** X14.  On a path with a trailing slash, with persistence available, a
    well-formed edit replaces the record of the edited network by the
    submitted one: the old name is deleted from the store and the submitted
    credentials are written under the submitted name, so after a rename the
    old record is gone.  The page uses the [ident] field for both username
    and realname and passes the port as text.  The requests are, in order:
    the close of the old session when there is one, the removal, the write,
    the dial. *)
Theorem edit_page_replaces_record
    (s : State) (req : Request) (d : Datastore)
    (old name addr nick ident pw host port : text)
    (Hslash : slashed req)
    (Hform : form_fields req name addr nick ident pw host port)
    (Hd : datastore s = Some d) :
  let s' := fst (Handlers.EditHandler_post req old s) in
  let c := Bouncer.credentials_dict (PStr name) (PStr host) (PStr port)
             (PStr nick) (PStr ident) (PStr ident) (PStr pw) in
  snd (Handlers.EditHandler_post req old s) = Ok Handlers.home
  ∧ datastore s'
    = Some {| password := password d;
              stored := <[PStr name := c]> (delete (PStr old) (stored d)) |}
  ∧ (datastore s' ≫= λ d', stored d' !! PStr name) = Some c
  ∧ (old ≠ name → (datastore s' ≫= λ d', stored d' !! PStr old) = None)
  ∧ c !! "username" = Some (PStr ident)
  ∧ c !! "realname" = Some (PStr ident)
  ∧ c !! "port" = Some (PStr port)
  ∧ trace s'
    = trace s
      ++ (if networks s !! PStr old is Some l then [TransportClose l] else [])
      ++ [StoreRemoveNetwork (PStr old); StoreAddNetwork c;
          Dial (PStr host) (PStr port) c].
Proof.
  intros s' c.
  pose proof (EditHandler_post_form old req s name addr nick ident pw
                host port Hslash Hform) as Hrun.
  assert (Hs' : s' = fst (page_add_network name nick ident pw host port
                            (fst (Bouncer.remove_network (PStr old) s)))).
  { unfold s'. by rewrite Hrun. }
  assert (Hd1 : datastore (fst (Bouncer.remove_network (PStr old) s))
                = Some (Datastore.remove_network d (PStr old))).
  { by rewrite remove_network_datastore, Hd. }
  assert (Hds : datastore s'
    = Some {| password := password d;
              stored := <[PStr name := c]> (delete (PStr old) (stored d)) |}).
  { rewrite Hs'. unfold page_add_network.
    rewrite add_network_datastore, Hd1. reflexivity. }
  split_and!.
  - by rewrite Hrun.
  - exact Hds.
  - rewrite Hds. simpl. apply lookup_insert_eq.
  - intros Hne. rewrite Hds. simpl.
    rewrite lookup_insert_ne by congruence. apply lookup_delete_eq.
  - unfold c, Bouncer.credentials_dict. by simplify_map_eq.
  - unfold c, Bouncer.credentials_dict. by simplify_map_eq.
  - unfold c, Bouncer.credentials_dict. by simplify_map_eq.
  - rewrite Hs'. unfold page_add_network.
    rewrite add_network_trace, Hd1, remove_network_trace, Hd.
    simpl. rewrite <- !app_assoc. reflexivity.
Qed.

Lemma edit_page_replaces_record_witness :
  let req := form_on "/edit/libera/" "irc.example.org:6667" in
  let s' := fst (Handlers.EditHandler_post req (text_of_string "libera")
                   (sample_state (Some sample_store))) in
  (datastore s' ≫= λ d', stored d' !! freenode)
  = Some (Bouncer.credentials_dict freenode
            (PStr (text_of_string "irc.example.org"))
            (PStr (text_of_string "6667"))
            (PStr (text_of_string "alice")) (PStr (text_of_string "alice"))
            (PStr (text_of_string "alice"))
            (PStr (text_of_string "secret"))).
Proof.
  intros req s'.
  assert (Hslash : slashed req) by (vm_compute; reflexivity).
  assert (Hform : form_fields req
            (text_of_string "freenode")
            (text_of_string "irc.example.org:6667")
            (text_of_string "alice") (text_of_string "alice")
            (text_of_string "secret")
            (text_of_string "irc.example.org") (text_of_string "6667")).
  { unfold form_fields. split_and!; vm_compute; reflexivity. }
  destruct (edit_page_replaces_record (sample_state (Some sample_store))
              req sample_store (text_of_string "libera")
              _ _ _ _ _ _ _ Hslash Hform eq_refl)
    as (_ & _ & Hrec & _).
  exact Hrec.
Defined.
